(** * Squava: a shallow embedding of the three-player engine

    The Go sources are embedded as Rocq functions over [Z]:
    a [Bitboard] is a [uint64], modelled as an integer in [0, 2^64);
    bit [r*8+c] is the cell at row [r], column [c].

    Part I holds the definitions, written from the source functions
    (squava.go, winslosses_amd64.s, main_wasm.go, the test file);
    Part II holds the lemmas and theorems. *)

From Stdlib Require Import ZArith List Bool Lia Permutation.
From Stdlib Require String DecimalString.
Import ListNotations.
Local Open Scope Z_scope.

(* ================================================================== *)
(** * Part I: definitions *)
(* ================================================================== *)

(** ** 64-bit words *)

Definition Full : Z := 0xFFFFFFFFFFFFFFFF.

(** [x] is a value of type [uint64]. *)
Definition u64 (x : Z) : Prop := 0 <= x < 2 ^ 64.

(** Go's [^x] on [uint64]. *)
Definition bnot (x : Z) : Z := Z.lxor x Full.

(** Go's [x << k] on [uint64]: bits shifted past bit 63 are lost, and a
    count of 64 or more gives zero. *)
Definition shl (x k : Z) : Z :=
  if 64 <=? k then 0 else Z.land (Z.shiftl x k) Full.

(** Go's [x >> k] on [uint64]. *)
Definition shr (x k : Z) : Z := Z.shiftr x k.

(** Go's [x - 1] on [uint64] (wraps at zero). *)
Definition dec64 (x : Z) : Z := (x - 1) mod 2 ^ 64.

Fixpoint pos_tz (p : positive) : Z :=
  match p with
  | xO q => 1 + pos_tz q
  | _ => 0
  end.

(** [bits.TrailingZeros64]: 64 on zero. *)
Definition TrailingZeros64 (x : Z) : Z :=
  match x with
  | Zpos p => pos_tz p
  | _ => 64
  end.

Fixpoint pos_ones (p : positive) : Z :=
  match p with
  | xH => 1
  | xO q => pos_ones q
  | xI q => 1 + pos_ones q
  end.

(** [bits.OnesCount64]. *)
Definition OnesCount64 (x : Z) : Z :=
  match x with
  | Zpos p => pos_ones p
  | _ => 0
  end.

(** ** Constants of squava.go *)

Definition BoardSize : Z := 8.
Definition WinLength : Z := 4.
Definition LoseLength : Z := 3.

Definition FileA : Z := 0x0101010101010101.
Definition FileB : Z := shl FileA 1.
Definition FileC : Z := shl FileA 2.
Definition FileD : Z := shl FileA 3.
Definition FileE : Z := shl FileA 4.
Definition FileF : Z := shl FileA 5.
Definition FileG : Z := shl FileA 6.
Definition FileH : Z := 0x8080808080808080.

(** ** Board and moves *)

Record Board : Type := mkBoard {
  P1 : Z;
  P2 : Z;
  P3 : Z;
  Occupied : Z
}.

Definition emptyBoard : Board := mkBoard 0 0 0 0.

Record Move : Type := mkMove { mr : Z; mc : Z }.

Definition Move_eqb (a b : Move) : bool :=
  (mr a =? mr b) && (mc a =? mc b).

(** [ToIndex].  Go computes [r*8 + c] on [int]; the model is exact as
    long as the sum stays inside the range of [int], which holds for
    every cell of the board. *)
Definition ToIndex (m : Move) : Z := mr m * 8 + mc m.

(** Go's [/] and [%] truncate towards zero. *)
Definition MoveFromIndex (idx : Z) : Move :=
  mkMove (Z.quot idx 8) (Z.rem idx 8).

(** [Board.Set]: the occupancy bit is always set, the stone only for a
    player id in 0..2.  The model covers [idx >= 0]: in Go a negative
    shift count is a run-time panic, and a count of 64 or more gives the
    mask 0. *)
Definition Set_ (b : Board) (idx pID : Z) : Board :=
  let mask := shl 1 idx in
  let occ := Z.lor (Occupied b) mask in
  if pID =? 0 then mkBoard (Z.lor (P1 b) mask) (P2 b) (P3 b) occ
  else if pID =? 1 then mkBoard (P1 b) (Z.lor (P2 b) mask) (P3 b) occ
  else if pID =? 2 then mkBoard (P1 b) (P2 b) (Z.lor (P3 b) mask) occ
  else mkBoard (P1 b) (P2 b) (P3 b) occ.

Definition GetPlayerBoard (b : Board) (pID : Z) : Z :=
  if pID =? 0 then P1 b
  else if pID =? 1 then P2 b
  else if pID =? 2 then P3 b
  else 0.

(** ** Terminal detection *)

Definition nonzero (x : Z) : bool := negb (x =? 0).

Definition CheckWin (bb : Z) : bool :=
  let h := Z.land (Z.land bb (shr bb 1)) (bnot FileH) in
  if nonzero (Z.land (Z.land h (shr h 2)) (bnot (Z.lor FileH (shr FileH 1))))
  then true else
  let v := Z.land bb (shr bb 8) in
  if nonzero (Z.land v (shr v 16)) then true else
  let d1 := Z.land (Z.land bb (shr bb 9)) (bnot FileH) in
  if nonzero (Z.land (Z.land d1 (shr d1 18)) (bnot (Z.lor FileH (shr FileH 9))))
  then true else
  let d2 := Z.land (Z.land bb (shr bb 7)) (bnot FileA) in
  if nonzero (Z.land (Z.land d2 (shr d2 14)) (bnot (Z.lor FileA (shr FileA 7))))
  then true else
  false.

Definition CheckLose (bb : Z) : bool :=
  let h := Z.land (Z.land bb (shr bb 1)) (bnot FileH) in
  if nonzero (Z.land (Z.land h (shr h 1)) (bnot FileH)) then true else
  let v := Z.land bb (shr bb 8) in
  if nonzero (Z.land v (shr v 8)) then true else
  let d1 := Z.land (Z.land bb (shr bb 9)) (bnot FileH) in
  if nonzero (Z.land (Z.land d1 (shr d1 9)) (bnot FileH)) then true else
  let d2 := Z.land (Z.land bb (shr bb 7)) (bnot FileA) in
  if nonzero (Z.land (Z.land d2 (shr d2 7)) (bnot FileA)) then true else
  false.

(** ** Winning cells (squava.go, scalar shift-and-mask) *)

Definition GetWinningMoves (board : Board) (pID : Z) : Z :=
  let myBB := GetPlayerBoard board pID in
  let empty := bnot (Occupied board) in
  let threats := 0 in
  (* Horizontal *)
  let r1 := Z.land (shr myBB 1) (bnot FileH) in
  let r2 := Z.land (shr myBB 2) (bnot (Z.lor FileH FileG)) in
  let r3 := Z.land (shr myBB 3) (bnot (Z.lor (Z.lor FileH FileG) FileF)) in
  let t := Z.land (Z.land myBB r1) r2 in
  let threats := Z.lor threats
      (Z.land (shl t 3) (bnot (Z.lor (Z.lor FileA FileB) FileC))) in
  let threats := Z.lor threats (Z.land (Z.land r1 r2) r3) in
  let t := Z.land (Z.land myBB r1) r3 in
  let threats := Z.lor threats (Z.land (shl t 2) (bnot (Z.lor FileA FileB))) in
  let t := Z.land (Z.land myBB r2) r3 in
  let threats := Z.lor threats (Z.land (shl t 1) (bnot FileA)) in
  (* Vertical *)
  let r1 := shr myBB 8 in
  let r2 := shr myBB 16 in
  let r3 := shr myBB 24 in
  let t := Z.land (Z.land myBB r1) r2 in
  let threats := Z.lor threats (shl t 24) in
  let threats := Z.lor threats (Z.land (Z.land r1 r2) r3) in
  let t := Z.land (Z.land myBB r1) r3 in
  let threats := Z.lor threats (shl t 16) in
  let t := Z.land (Z.land myBB r2) r3 in
  let threats := Z.lor threats (shl t 8) in
  (* Diagonal (+9) *)
  let r1 := Z.land (shr myBB 9) (bnot FileH) in
  let r2 := Z.land (shr myBB 18) (bnot (Z.lor FileH FileG)) in
  let r3 := Z.land (shr myBB 27) (bnot (Z.lor (Z.lor FileH FileG) FileF)) in
  let t := Z.land (Z.land myBB r1) r2 in
  let threats := Z.lor threats
      (Z.land (shl t 27) (bnot (Z.lor (Z.lor FileA FileB) FileC))) in
  let threats := Z.lor threats (Z.land (Z.land r1 r2) r3) in
  let t := Z.land (Z.land myBB r1) r3 in
  let threats := Z.lor threats (Z.land (shl t 18) (bnot (Z.lor FileA FileB))) in
  let t := Z.land (Z.land myBB r2) r3 in
  let threats := Z.lor threats (Z.land (shl t 9) (bnot FileA)) in
  (* Anti-diagonal (+7) *)
  let r1 := Z.land (shr myBB 7) (bnot FileA) in
  let r2 := Z.land (shr myBB 14) (bnot (Z.lor FileA FileB)) in
  let r3 := Z.land (shr myBB 21) (bnot (Z.lor (Z.lor FileA FileB) FileC)) in
  let t := Z.land (Z.land myBB r1) r2 in
  let threats := Z.lor threats
      (Z.land (shl t 21) (bnot (Z.lor (Z.lor FileH FileG) FileF))) in
  let threats := Z.lor threats (Z.land (Z.land r1 r2) r3) in
  let t := Z.land (Z.land myBB r1) r3 in
  let threats := Z.lor threats (Z.land (shl t 14) (bnot (Z.lor FileH FileG))) in
  (* the source repeats the anti-diagonal patterns ("Fix XXX.") *)
  let t := Z.land (Z.land myBB r1) r2 in
  let threats := Z.lor threats
      (Z.land (shl t 21) (bnot (Z.lor (Z.lor FileH FileG) FileF))) in
  let threats := Z.lor threats (Z.land (Z.land r1 r2) r3) in
  let t := Z.land (Z.land myBB r1) r3 in
  let threats := Z.lor threats (Z.land (shl t 14) (bnot (Z.lor FileH FileG))) in
  let t := Z.land (Z.land myBB r2) r3 in
  let threats := Z.lor threats (Z.land (shl t 7) (bnot FileH)) in
  Z.land threats empty.

(** The loop [for x != 0 { idx := TrailingZeros64(x); append; x &^= 1<<idx }]
    of [GetValidMoves] and [GetPossibleMoves].  Every round clears one bit
    of a 64-bit word, so 64 rounds of fuel are never exhausted. *)
Fixpoint bitsToMoves (fuel : nat) (x : Z) : list Move :=
  match fuel with
  | O => []
  | S f =>
      if x =? 0 then []
      else
        let idx := TrailingZeros64 x in
        MoveFromIndex idx :: bitsToMoves f (Z.land x (bnot (shl 1 idx)))
  end.

(** [GetValidMoves]: [None] is Go's [nil] slice ("no restrictions"). *)
Definition GetValidMoves (board : Board) (currentPID nextPID : Z)
  : option (list Move) :=
  let threats := GetWinningMoves board nextPID in
  let myWins := GetWinningMoves board currentPID in
  if threats =? 0 then None
  else Some (bitsToMoves 64 (Z.lor threats myWins)).

(** ** The four-lane extractor (winslosses_amd64.s)

    A YMM register is four 64-bit lanes, an XMM register two.
    Lane order: horizontal, vertical, diagonal, anti-diagonal. *)

Definition YMM : Type := (Z * Z * Z * Z)%type.
Definition XMM : Type := (Z * Z)%type.

Definition ymap2 (f : Z -> Z -> Z) (a b : YMM) : YMM :=
  let '(a0, a1, a2, a3) := a in
  let '(b0, b1, b2, b3) := b in
  (f a0 b0, f a1 b1, f a2 b2, f a3 b3).

Definition VPBROADCASTQ (x : Z) : YMM := (x, x, x, x).
(** [VPSRLVQ cnt, src, dst]: per-lane logical right shift. *)
Definition VPSRLVQ (cnt src : YMM) : YMM := ymap2 (fun c s => shr s c) cnt src.
Definition VPSLLVQ (cnt src : YMM) : YMM := ymap2 (fun c s => shl s c) cnt src.
Definition VPAND (a b : YMM) : YMM := ymap2 Z.land a b.
Definition VPOR (a b : YMM) : YMM := ymap2 Z.lor a b.
(** [VEXTRACTI128 $1]: the upper two lanes. *)
Definition VEXTRACTI128_1 (y : YMM) : XMM := let '(_, _, y2, y3) := y in (y2, y3).
(** Reading a YMM register as its XMM half. *)
Definition lowX (y : YMM) : XMM := let '(y0, y1, _, _) := y in (y0, y1).
Definition VPORX (a b : XMM) : XMM := (Z.lor (fst a) (fst b), Z.lor (snd a) (snd b)).
(** [VPSHUFD $0x4E]: swap the two 64-bit halves. *)
Definition VPSHUFD_4E (x : XMM) : XMM := (snd x, fst x).
Definition MOVQ (x : XMM) : Z := fst x.

Definition shifts1 : YMM := (1, 8, 9, 7).
Definition shifts2 : YMM := (2, 16, 18, 14).
Definition shifts3 : YMM := (3, 24, 27, 21).
Definition maskR1 : YMM :=
  (0x7F7F7F7F7F7F7F7F, 0xFFFFFFFFFFFFFFFF, 0x7F7F7F7F7F7F7F7F, 0xFEFEFEFEFEFEFEFE).
Definition maskL1 : YMM :=
  (0xFEFEFEFEFEFEFEFE, 0xFFFFFFFFFFFFFFFF, 0xFEFEFEFEFEFEFEFE, 0x7F7F7F7F7F7F7F7F).
Definition maskR2 : YMM :=
  (0x3F3F3F3F3F3F3F3F, 0xFFFFFFFFFFFFFFFF, 0x3F3F3F3F3F3F3F3F, 0xFCFCFCFCFCFCFCFC).
Definition maskL2 : YMM :=
  (0xFCFCFCFCFCFCFCFC, 0xFFFFFFFFFFFFFFFF, 0xFCFCFCFCFCFCFCFC, 0x3F3F3F3F3F3F3F3F).
Definition maskR3 : YMM :=
  (0x1F1F1F1F1F1F1F1F, 0xFFFFFFFFFFFFFFFF, 0x1F1F1F1F1F1F1F1F, 0xF8F8F8F8F8F8F8F8).
Definition maskL3 : YMM :=
  (0xF8F8F8F8F8F8F8F8, 0xFFFFFFFFFFFFFFFF, 0xF8F8F8F8F8F8F8F8, 0x1F1F1F1F1F1F1F1F).

(** [getWinsAndLossesAVX2(b, e) (w, l)], instruction by instruction. *)
Definition getWinsAndLossesAVX2 (b e : Z) : Z * Z :=
  let Y0 := VPBROADCASTQ b in
  let Y1 := VPBROADCASTQ e in
  let Y2 := shifts1 in
  let Y3 := VPSRLVQ Y2 Y0 in
  let Y3 := VPAND maskR1 Y3 in
  let Y4 := VPSLLVQ Y2 Y0 in
  let Y4 := VPAND maskL1 Y4 in
  let Y2 := shifts2 in
  let Y5 := VPSRLVQ Y2 Y0 in
  let Y5 := VPAND maskR2 Y5 in
  let Y6 := VPSLLVQ Y2 Y0 in
  let Y6 := VPAND maskL2 Y6 in
  let Y2 := shifts3 in
  let Y7 := VPSRLVQ Y2 Y0 in
  let Y7 := VPAND maskR3 Y7 in
  let Y8 := VPSLLVQ Y2 Y0 in
  let Y8 := VPAND maskL3 Y8 in
  (* L lanes: e & (r1&r2 | r1&l1 | l1&l2) *)
  let Y9 := VPAND Y3 Y5 in
  let Y10 := VPAND Y3 Y4 in
  let Y9 := VPOR Y9 Y10 in
  let Y10 := VPAND Y4 Y6 in
  let Y9 := VPOR Y10 Y9 in
  let Y9 := VPAND Y1 Y9 in
  (* W lanes: e & (r1&r2&(r3|l1) | l1&l2&(r1|l3)) *)
  let Y10 := VPOR Y7 Y4 in
  let Y11 := VPAND Y3 Y5 in
  let Y10 := VPAND Y11 Y10 in
  let Y11 := VPOR Y3 Y8 in
  let Y12 := VPAND Y4 Y6 in
  let Y11 := VPAND Y12 Y11 in
  let Y10 := VPOR Y10 Y11 in
  let Y10 := VPAND Y1 Y10 in
  (* horizontal OR for W *)
  let X11 := VEXTRACTI128_1 Y10 in
  let X10 := VPORX X11 (lowX Y10) in
  let X11 := VPSHUFD_4E X10 in
  let X10 := VPORX X11 X10 in
  let w := MOVQ X10 in
  (* horizontal OR for L *)
  let X11 := VEXTRACTI128_1 Y9 in
  let X9 := VPORX X11 (lowX Y9) in
  let X11 := VPSHUFD_4E X9 in
  let X9 := VPORX X11 X9 in
  let l := MOVQ X9 in
  (w, l).

(** Modelled from the spec: the Go wrapper [GetWinsAndLosses] around the
    lane kernel is not among the sources (only its callers and its test
    are).  Section 4.1: "The four lane outputs are OR-reduced into a single
    64-bit mask" and "A cell present in both the win set and the lose set
    is treated as a win (i.e. lose &= !wins)". *)
Definition GetWinsAndLosses (bb empty : Z) : Z * Z :=
  let '(w, l) := getWinsAndLossesAVX2 bb empty in
  (w, Z.land l (bnot w)).

(** ** The naive enumeration of the test file *)

Definition directions : list (Z * Z) := [(0, 1); (1, 0); (1, 1); (1, -1)].

Definition inBoard (nr nc : Z) : bool :=
  (0 <=? nr) && (nr <? 8) && (0 <=? nc) && (nc <? 8).

(** The innermost loop [for k := 0; k < len; k++]: counts the cells of the
    window starting at [startOffset] that are on the board and are either
    the new stone or an existing one. *)
Definition countRun (b r c : Z) (dir : Z * Z) (startOffset : Z) (ks : list Z) : Z :=
  fold_left
    (fun count k =>
       let nr := r + (startOffset + k) * fst dir in
       let nc := c + (startOffset + k) * snd dir in
       if inBoard nr nc then
         if ((nr =? r) && (nc =? c)) || nonzero (Z.land b (shl 1 (nr * 8 + nc)))
         then count + 1 else count
       else count)
    ks 0.

(** The two nested loops with their [break]s: some direction, some start
    offset, whose window is full. *)
Definition hasRun (b r c len : Z) (offsets ks : list Z) : bool :=
  existsb
    (fun dir => existsb (fun so => countRun b r c dir so ks =? len) offsets)
    directions.

Definition slowStep (b e : Z) (acc : Z * Z) (i : Z) : Z * Z :=
  let '(w, l) := acc in
  if Z.land e (shl 1 i) =? 0 then (w, l)
  else
    let r := Z.quot i 8 in
    let c := Z.rem i 8 in
    if hasRun b r c 4 [-3; -2; -1; 0] [0; 1; 2; 3] then (Z.lor w (shl 1 i), l)
    else if hasRun b r c 3 [-2; -1; 0] [0; 1; 2] then (w, Z.lor l (shl 1 i))
    else (w, l).

Definition cells : list Z := map Z.of_nat (seq 0 64).

Definition slowGetWinsAndLosses (bb empty : Z) : Z * Z :=
  let '(w, l) := fold_left (slowStep bb empty) cells (0, 0) in
  (w, Z.land l (bnot w)).

(** ** Simulation logic (squava.go) *)

Record State : Type := mkState {
  board : Board;
  nextPlayerID : Z;
  remainingPlayers : list Z;
  winnerID : Z
}.

(** [pIdx := 0; for i, id := range players { if id == currentID { pIdx = i; break } }]:
    the first position of [id], and 0 when it is absent. *)
Fixpoint indexFrom (i : nat) (players : list Z) (id : Z) : nat :=
  match players with
  | [] => 0%nat
  | x :: rest => if x =? id then i else indexFrom (S i) rest id
  end.

Definition playerIndex (players : list Z) (id : Z) : nat := indexFrom 0 players id.

(** [append(s[:pIdx], s[pIdx+1:]...)]; slicing past the end panics. *)
Definition removeAt (pIdx : nat) (s : list Z) : option (list Z) :=
  if (pIdx + 1 <=? length s)%nat
  then Some (firstn pIdx s ++ skipn (pIdx + 1) s)
  else None.

(** [SimulateStep]; [None] is a run-time panic (index out of range or
    division by zero on an empty player list). *)
Definition SimulateStep (board : Board) (players : list Z) (currentID : Z)
    (move : Move) : option State :=
  let newBoard := Set_ board (ToIndex move) currentID in
  let newPlayers := players in
  let pIdx := playerIndex newPlayers currentID in
  if CheckWin (GetPlayerBoard newBoard currentID) then
    Some (mkState newBoard (-1) newPlayers currentID)
  else if CheckLose (GetPlayerBoard newBoard currentID) then
    match removeAt pIdx newPlayers with
    | None => None
    | Some newPlayers =>
        if (length newPlayers =? 1)%nat then
          Some (mkState newBoard (-1) newPlayers (nth 0 newPlayers 0))
        else
          let pIdx := if (length newPlayers <=? pIdx)%nat then 0%nat else pIdx in
          match nth_error newPlayers pIdx with
          | None => None
          | Some nextID => Some (mkState newBoard nextID newPlayers (-1))
          end
    end
  else
    if (length newPlayers =? 0)%nat then None
    else
      match nth_error newPlayers ((pIdx + 1) mod length newPlayers)%nat with
      | None => None
      | Some nextID => Some (mkState newBoard nextID newPlayers (-1))
      end.

(** The reward map [map[int]float64]: (player, reward) entries; the only
    reward ever stored is the float 1.0, written [1]. *)
Definition Result : Type := list (Z * Z).

(** Outcome of running a loop of the source with a bound on its rounds. *)
Inductive Run (A : Type) : Type :=
| Done (a : A)
| Panic
| OutOfFuel.
Arguments Done {A} a.
Arguments Panic {A}.
Arguments OutOfFuel {A}.

(** [temp &= temp - 1], [pick] times: drop the [pick] lowest set bits. *)
Definition dropLowest (pick : Z) (bits : Z) : Z :=
  Nat.iter (Z.to_nat pick) (fun temp => Z.land temp (dec64 temp)) bits.

Section Rollout.

(** The process-wide generator behind [rand.Intn]: a state and a draw. *)
Variable RNG : Type.
Variable Intn : RNG -> Z -> Z * RNG.

(** What one round of the [for { ... }] loop of [RunSimulation] does:
    it returns a reward map, panics, or goes round again with a new
    generator state, board, player list and current player. *)
Inductive Round : Type :=
| Return (r : Result) (g : RNG)
| Crash
| Next (g : RNG) (simBoard : Board) (simPlayers : list Z) (curr : Z).

(** The body of the loop. *)
Definition RunSimulation_round (g : RNG) (simBoard : Board)
    (simPlayers : list Z) (curr : Z) : Round :=
  if (length simPlayers =? 1)%nat then Return [(nth 0 simPlayers 0, 1)] g
  else
    let pIdx := playerIndex simPlayers curr in
    if (length simPlayers =? 0)%nat then Crash
    else
      match nth_error simPlayers ((pIdx + 1) mod length simPlayers)%nat with
      | None => Crash
      | Some nextP =>
        let threats := GetWinningMoves simBoard nextP in
        let myWins := GetWinningMoves simBoard curr in
        let movesBitboard :=
          if nonzero threats then Z.lor threats myWins
          else bnot (Occupied simBoard) in
        if movesBitboard =? 0 then Return [] g
        else
          let count := OnesCount64 movesBitboard in
          if count =? 0 then Return [] g
          else
            let '(pick, g') := Intn g count in
            let temp := dropLowest pick movesBitboard in
            let selectedIdx := TrailingZeros64 temp in
            let simBoard := Set_ simBoard selectedIdx curr in
            if CheckWin (GetPlayerBoard simBoard curr) then Return [(curr, 1)] g'
            else if CheckLose (GetPlayerBoard simBoard curr) then
              match removeAt pIdx simPlayers with
              | None => Crash
              | Some simPlayers =>
                if (length simPlayers =? 1)%nat
                then Return [(nth 0 simPlayers 0, 1)] g'
                else
                  let pIdx :=
                    if (length simPlayers <=? pIdx)%nat then 0%nat else pIdx in
                  match nth_error simPlayers pIdx with
                  | None => Crash
                  | Some curr => Next g' simBoard simPlayers curr
                  end
              end
            else
              match nth_error simPlayers ((pIdx + 1) mod length simPlayers)%nat with
              | None => Crash
              | Some curr => Next g' simBoard simPlayers curr
              end
      end.

(** The loop itself, cut off after [fuel] rounds. *)
Fixpoint RunSimulation_loop (fuel : nat) (g : RNG) (simBoard : Board)
    (simPlayers : list Z) (curr : Z) : Run (Result * RNG) :=
  match fuel with
  | O => OutOfFuel
  | S fuel' =>
      match RunSimulation_round g simBoard simPlayers curr with
      | Return r g' => Done (r, g')
      | Crash => Panic
      | Next g' simBoard' simPlayers' curr' =>
          RunSimulation_loop fuel' g' simBoard' simPlayers' curr'
      end
  end.

(** [RunSimulation]: the player list is copied, then the loop runs. *)
Definition RunSimulation (fuel : nat) (g : RNG) (board : Board)
    (players : list Z) (currentID : Z) : Run (Result * RNG) :=
  RunSimulation_loop fuel g board players currentID.

End Rollout.

(** ** The MCTS player (squava.go)

    A search node.  The [parent] pointer of the Go struct is used only by
    the back-propagation inside the iteration loop and is not kept here;
    [children] is the Go map from moves to child nodes, as the list of its
    entries; [wins] accumulates rewards 1.0 and is kept as an integer. *)
Module Node.
Inductive MCTSNode : Type := mk {
  board : Board;
  children : list (Move * MCTSNode);
  visits : Z;
  wins : Z;
  playerToMoveID : Z;
  remainingPlayers : list Z;
  winnerID : Z;
  untriedMoves : list Move
}.
End Node.
Notation MCTSNode := Node.MCTSNode.

(** [GetPossibleMoves]. *)
Definition GetPossibleMoves (n : MCTSNode) : list Move :=
  if negb (Node.winnerID n =? -1) then []
  else if (length (Node.remainingPlayers n) =? 0)%nat then []
  else if negb (existsb (fun id => id =? Node.playerToMoveID n) (Node.remainingPlayers n))
  then []
  else
    let currIdx := playerIndex (Node.remainingPlayers n) (Node.playerToMoveID n) in
    let nextID :=
      nth ((currIdx + 1) mod length (Node.remainingPlayers n))%nat
          (Node.remainingPlayers n) 0 in
    match GetValidMoves (Node.board n) (Node.playerToMoveID n) nextID with
    | None => bitsToMoves 64 (bnot (Occupied (Node.board n)))
    | Some validMoves => validMoves
    end.

(** [NewMCTSNode] (without the parent argument). *)
Definition NewMCTSNode (board : Board) (playerToMoveID : Z)
    (remainingPlayers : list Z) : MCTSNode :=
  let node := Node.mk board [] 0 0 playerToMoveID remainingPlayers (-1) [] in
  Node.mk board [] 0 0 playerToMoveID remainingPlayers (-1) (GetPossibleMoves node).

Definition setUntried (n : MCTSNode) (moves : list Move) : MCTSNode :=
  Node.mk (Node.board n) (Node.children n) (Node.visits n) (Node.wins n)
          (Node.playerToMoveID n) (Node.remainingPlayers n) (Node.winnerID n) moves.

(** The last loop of [GetMoveWithContext]:
    [bestVisits := -1; for m, child := range root.children
       { if child.visits > bestVisits { bestVisits = child.visits; bestMove = m } }],
    over the entries in the order in which [range] yields them. *)
Definition bestStep (acc : Z * Move) (e : Move * MCTSNode) : Z * Move :=
  if fst acc <? Node.visits (snd e) then (Node.visits (snd e), fst e) else acc.

Definition mostVisited (order : list (Move * MCTSNode)) : Move :=
  snd (fold_left bestStep order (-1, mkMove 0 0)).

(** [n.children[move] = child] and [n.children[move]]. *)
Fixpoint lookupChild (m : Move) (cs : list (Move * MCTSNode)) : option MCTSNode :=
  match cs with
  | [] => None
  | (k, c) :: rest => if Move_eqb k m then Some c else lookupChild m rest
  end.

Fixpoint setChild (m : Move) (c : MCTSNode) (cs : list (Move * MCTSNode))
  : list (Move * MCTSNode) :=
  match cs with
  | [] => [(m, c)]
  | (k, c') :: rest =>
      if Move_eqb k m then (k, c) :: rest else (k, c') :: setChild m c rest
  end.

Definition setChildren (n : MCTSNode) (cs : list (Move * MCTSNode)) : MCTSNode :=
  Node.mk (Node.board n) cs (Node.visits n) (Node.wins n)
          (Node.playerToMoveID n) (Node.remainingPlayers n) (Node.winnerID n)
          (Node.untriedMoves n).

Definition setWinnerID (n : MCTSNode) (w : Z) : MCTSNode :=
  Node.mk (Node.board n) (Node.children n) (Node.visits n) (Node.wins n)
          (Node.playerToMoveID n) (Node.remainingPlayers n) w
          (Node.untriedMoves n).

(** A node of the tree is named by the moves that lead to it from the
    root; the pointers of the Go code become such paths. *)
Fixpoint getNode (root : MCTSNode) (path : list Move) : option MCTSNode :=
  match path with
  | [] => Some root
  | m :: rest =>
      match lookupChild m (Node.children root) with
      | None => None
      | Some c => getNode c rest
      end
  end.

Fixpoint updateNode (path : list Move) (f : MCTSNode -> MCTSNode)
    (root : MCTSNode) : MCTSNode :=
  match path with
  | [] => f root
  | m :: rest =>
      match lookupChild m (Node.children root) with
      | None => root
      | Some c =>
          setChildren root (setChild m (updateNode rest f c) (Node.children root))
      end
  end.

(** [AddChild]: the child is built by [NewMCTSNode] (so its untried moves
    are computed while its [winnerID] is still -1), then gets the
    state's winner. *)
Definition newChild (state : State) : MCTSNode :=
  setWinnerID
    (NewMCTSNode (board state) (nextPlayerID state) (remainingPlayers state))
    (winnerID state).

Fixpoint lookupResult (result : Result) (id : Z) : option Z :=
  match result with
  | [] => None
  | (k, v) :: rest => if k =? id then Some v else lookupResult rest id
  end.

(** [Update]: one more visit; the reward of the parent's mover, if the
    node has a parent and the map has an entry for that player. *)
Definition Update (result : Result) (parentMover : option Z) (n : MCTSNode)
  : MCTSNode :=
  let wins' :=
    match parentMover with
    | None => Node.wins n
    | Some mover =>
        match lookupResult result mover with
        | Some val => Node.wins n + val
        | None => Node.wins n
        end
    end in
  Node.mk (Node.board n) (Node.children n) (Node.visits n + 1) wins'
          (Node.playerToMoveID n) (Node.remainingPlayers n) (Node.winnerID n)
          (Node.untriedMoves n).

(** [for node != nil { node.Update(result); node = node.parent }]: every
    node on the path from the root to the leaf is updated once.  The Go
    loop walks from the leaf up; each update reads only the reward map
    and the parent's [playerToMoveID], which no update changes, so walking
    down from the root gives the same tree. *)
Fixpoint backprop (result : Result) (parentMover : option Z)
    (path : list Move) (n : MCTSNode) : MCTSNode :=
  let n' := Update result parentMover n in
  match path with
  | [] => n'
  | m :: rest =>
      match lookupChild m (Node.children n') with
      | None => n'
      | Some c =>
          setChildren n'
            (setChild m (backprop result (Some (Node.playerToMoveID n)) rest c)
                      (Node.children n'))
      end
  end.

Section Search.

(** The generator behind [rand.Intn], as for the rollout. *)
Variable RNG : Type.
Variable Intn : RNG -> Z -> Z * RNG.

(** [UCTSelectChild] compares floating-point scores; it is kept as an
    unknown choice of a child, named by its key in the map ([None] is the
    nil pointer it returns when no score beats minus infinity). *)
Variable UCTSelectChild : MCTSNode -> option Move.

(** The order in which [range] yields the entries of a map; Go leaves
    it unspecified. *)
Variable rangeOrder : list (Move * MCTSNode) -> list (Move * MCTSNode).

(** [for len(node.untriedMoves) == 0 && len(node.children) > 0
      { node = node.UCTSelectChild() }]: the path to the selected node. *)
Fixpoint selectPath (fuel : nat) (node : MCTSNode) : Run (list Move) :=
  if (length (Node.untriedMoves node) =? 0)%nat
     && (0 <? length (Node.children node))%nat
  then
    match fuel with
    | O => OutOfFuel
    | S fuel' =>
        match UCTSelectChild node with
        | None => Panic
        | Some m =>
            match lookupChild m (Node.children node) with
            | None => Panic
            | Some c =>
                match selectPath fuel' c with
                | Done p => Done (m :: p)
                | Panic => Panic
                | OutOfFuel => OutOfFuel
                end
            end
        end
    end
  else Done [].

(** One round of the iteration loop: selection, expansion, rollout (or
    the known winner), back-propagation. *)
Definition searchRound (g : RNG) (root : MCTSNode) : Run (RNG * MCTSNode) :=
  match selectPath 65 root with
  | Panic => Panic
  | OutOfFuel => OutOfFuel
  | Done path =>
    match getNode root path with
    | None => Panic
    | Some node =>
      let expanded : Run (RNG * MCTSNode * list Move * MCTSNode) :=
        if (0 <? length (Node.untriedMoves node))%nat then
          let '(k, g1) := Intn g (Z.of_nat (length (Node.untriedMoves node))) in
          match nth_error (Node.untriedMoves node) (Z.to_nat k) with
          | None => Panic
          | Some move =>
            match SimulateStep (Node.board node) (Node.remainingPlayers node)
                               (Node.playerToMoveID node) move with
            | None => Panic
            | Some state =>
              let child := newChild state in
              let root1 :=
                updateNode path
                  (fun n => setChildren n (setChild move child (Node.children n)))
                  root in
              Done (g1, root1, path ++ [move], child)
            end
          end
        else Done (g, root, path, node) in
      match expanded with
      | Panic => Panic
      | OutOfFuel => OutOfFuel
      | Done (g1, root1, path1, node1) =>
        let rollout : Run (Result * RNG) :=
          if negb (Node.winnerID node1 =? -1)
          then Done ([(Node.winnerID node1, 1)], g1)
          else RunSimulation RNG Intn 65 g1 (Node.board node1)
                 (Node.remainingPlayers node1) (Node.playerToMoveID node1) in
        match rollout with
        | Panic => Panic
        | OutOfFuel => OutOfFuel
        | Done (result, g2) => Done (g2, backprop result None path1 root1)
        end
      end
    end
  end.

(** [for i := 0; i < m.iterations; i++ { ... }]. *)
Fixpoint searchRounds (n : nat) (g : RNG) (root : MCTSNode) : Run (RNG * MCTSNode) :=
  match n with
  | O => Done (g, root)
  | S n' =>
      match searchRound g root with
      | Done (g', root') => searchRounds n' g' root'
      | Panic => Panic
      | OutOfFuel => OutOfFuel
      end
  end.

(** The root that the iteration loop starts from. *)
Definition searchRoot (board : Board) (forcedMoves : list Move) (players : list Z)
    (pid : Z) : MCTSNode :=
  let root := NewMCTSNode board pid players in
  if (0 <? length forcedMoves)%nat then setUntried root forcedMoves else root.

(** What [GetMoveWithContext] returns once the loop is over. *)
Definition finalMove (board : Board) (forcedMoves : list Move) (root : MCTSNode)
  : Move :=
  if (length (Node.children root) =? 0)%nat then
    match forcedMoves with
    | m :: _ => m
    | [] =>
      let empty := bnot (Occupied board) in
      if nonzero empty then MoveFromIndex (TrailingZeros64 empty)
      else mkMove 0 0
    end
  else mostVisited (rangeOrder (Node.children root)).

(** [GetMoveWithContext]; [players[turnIdx]] out of range is a panic. *)
Definition GetMoveWithContext (g : RNG) (iterations : Z) (board : Board)
    (forcedMoves : list Move) (players : list Z) (turnIdx : nat)
  : Run (Move * RNG) :=
  match nth_error players turnIdx with
  | None => Panic
  | Some pid =>
    match searchRounds (Z.to_nat iterations) g
                       (searchRoot board forcedMoves players pid) with
    | Panic => Panic
    | OutOfFuel => OutOfFuel
    | Done (g', root) => Done (finalMove board forcedMoves root, g')
    end
  end.

(** How the game loop of squava.go ([Run]) asks the player for a move. *)
Definition runSearch (g : RNG) (iterations : Z) (board : Board)
    (players : list Z) (turnIdx : nat) : Run (Move * RNG) :=
  match nth_error players turnIdx,
        nth_error players ((turnIdx + 1) mod length players)%nat with
  | Some currentID, Some nextID =>
      let forcedMoves :=
        match GetValidMoves board currentID nextID with
        | None => []
        | Some moves => moves
        end in
      GetMoveWithContext g iterations board forcedMoves players turnIdx
  | _, _ => Panic
  end.

End Search.

(** ** The browser entry points (main_wasm.go) *)

(** Modelled from the spec: the [GameState] struct is not among the
    sources.  Section 3: "a Board, the ID of the player to move, an
    ActiveMask (three low bits; bit i set iff player i is still active),
    a cached 64-bit Zobrist Hash, and a cached WinnerID". *)
Record GameState : Type := mkGameState {
  gsBoard : Board;
  PlayerID : Z;
  ActiveMask : Z;
  Hash : Z;
  WinnerID : Z
}.

(** Modelled from the spec: [GameState.ActiveIDs] is not among the
    sources.  Section 4.3 speaks of "the list of active player IDs in
    clockwise order"; bit [i] of [ActiveMask] says whether [i] is active. *)
Definition ActiveIDs (gs : GameState) : list Z :=
  filter (fun i => Z.testbit (ActiveMask gs) i) [0; 1; 2].

(** Modelled from the spec: [GetForcedMoves] is not among the sources.
    Section 4.3: "let threats = wins_and_losses(stones_of_next_active,
    empty).0. If threats == 0, the mover is unrestricted. Otherwise let
    my_wins = wins_and_losses(stones_of_mover, empty).0; the forced move
    set is threats | my_wins". *)
Definition GetForcedMoves (board : Board) (players : list Z) (turnIdx : nat) : Z :=
  let mover := nth turnIdx players 0 in
  let next := nth ((turnIdx + 1) mod length players)%nat players 0 in
  let empty := bnot (Occupied board) in
  let threats := fst (GetWinsAndLosses (GetPlayerBoard board next) empty) in
  if threats =? 0 then 0
  else Z.lor threats (fst (GetWinsAndLosses (GetPlayerBoard board mover) empty)).

(** What a [js.Value] returned to the page can be. *)
Inductive JSValue : Type :=
| JSBool (b : bool)
| JSString (s : String.string)
| JSInt (n : Z).

(** [strconv.FormatUint(x, 10)]. *)
Definition FormatUint (x : Z) : String.string :=
  DecimalString.NilZero.string_of_uint (N.to_uint (Z.to_N x)).

(** Go's conversion [uint(idx)] of an [int]. *)
Definition uint (x : Z) : Z := x mod 2 ^ 64.

Section Wasm.

(** [GameState.ApplyMove] and the three-argument [MCTSPlayer.GetMove]
    called by the entry points are not among the sources. *)
Variable ApplyMove : GameState -> Move -> GameState.
Variable GetMove : Z -> Board -> list Z -> nat -> option Move.

(** [applyMove]: the value handed back to the page and the new value of
    the global [currentGS]. *)
Definition applyMove (currentGS : GameState) (args : list Z)
  : JSValue * GameState :=
  match args with
  | [] => (JSBool false, currentGS)
  | idx :: _ =>
    let mask := shl 1 (uint idx) in
    if nonzero (Z.land (Occupied (gsBoard currentGS)) mask)
    then (JSBool false, currentGS)
    else
      let activeIDs := ActiveIDs currentGS in
      let turnIdx := playerIndex activeIDs (PlayerID currentGS) in
      let forced := GetForcedMoves (gsBoard currentGS) activeIDs turnIdx in
      if nonzero forced && (Z.land forced (shl 1 (uint idx)) =? 0)
      then (JSBool false, currentGS)
      else
        let move := MoveFromIndex idx in
        let gs := ApplyMove currentGS move in
        (JSString (FormatUint (Hash gs)), gs)
  end.

(** [getForcedMoves]. *)
Definition getForcedMoves (currentGS : GameState) : JSValue :=
  let activeIDs := ActiveIDs currentGS in
  let turnIdx := playerIndex activeIDs (PlayerID currentGS) in
  JSString (FormatUint (GetForcedMoves (gsBoard currentGS) activeIDs turnIdx)).

(** [getBestMove]; [None] when the search panics. *)
Definition getBestMove (currentGS : GameState) (args : list Z) : option JSValue :=
  let iterations := match args with [] => 10000 | a :: _ => a end in
  let activeIDs := ActiveIDs currentGS in
  let turnIdx := playerIndex activeIDs (PlayerID currentGS) in
  let forced := GetForcedMoves (gsBoard currentGS) activeIDs turnIdx in
  if nonzero forced && (OnesCount64 forced =? 1)
  then Some (JSInt (TrailingZeros64 forced))
  else
    match GetMove iterations (gsBoard currentGS) activeIDs turnIdx with
    | None => None
    | Some move => Some (JSInt (ToIndex move))
    end.

End Wasm.

(** Modelled from the spec: the three-argument [MCTSPlayer.GetMove] that
    [getBestMove] calls is not among the sources (squava.go holds an
    earlier two-argument stub and [GetMoveWithContext], which take the
    forced moves as a list and which [getBestMove] does not call).
    Section 4.6: "Fast paths before tree search: Compute forced =
    forced_moves(board, active_ids, turn_idx).  If forced has exactly one
    bit set, return that cell immediately.  If the mover has a winning
    cell (wins_and_losses(mover, empty).0 != 0), return any one of them
    (lowest bit).  Otherwise run iterations of the four-phase MCTS loop".
    The loop itself is the argument [treeSearch]. *)
Definition MCTSPlayer_GetMove
    (treeSearch : Z -> Board -> list Z -> nat -> option Move)
    (iterations : Z) (board : Board) (players : list Z) (turnIdx : nat)
  : option Move :=
  let forced := GetForcedMoves board players turnIdx in
  if OnesCount64 forced =? 1 then Some (MoveFromIndex (TrailingZeros64 forced))
  else
    let wins :=
      fst (GetWinsAndLosses (GetPlayerBoard board (nth turnIdx players 0))
                            (bnot (Occupied board))) in
    if nonzero wins then Some (MoveFromIndex (TrailingZeros64 wins))
    else treeSearch iterations board players turnIdx.

(** ** Vocabulary of the statements

    [cell x r c]: the cell (r, c) is on the board and set in [x].
    [nb b r c dr dc j]: the cell [j] steps from (r, c) in direction
    (dr, dc) holds a stone of [b]. *)

Definition cell (x r c : Z) : bool := inBoard r c && Z.testbit x (8 * r + c).

Definition incol (x : Z) : bool := (0 <=? x) && (x <? 8).
Definition nb (b r c dr dc j : Z) : bool := cell b (r + j * dr) (c + j * dc).

Definition range8 : list Z := [0; 1; 2; 3; 4; 5; 6; 7].

(** A mask [m] keeps exactly the cells whose column [c] satisfies [p]. *)
Definition colmask (m : Z) (p : Z -> bool) : Prop :=
  forall r c, 0 <= r < 8 -> 0 <= c < 8 -> Z.testbit m (8 * r + c) = p c.

(** The slow side. *)
Definition runCell (b r c dr dc so k : Z) : bool :=
  let nr := r + (so + k) * dr in
  let nc := c + (so + k) * dc in
  inBoard nr nc && (((nr =? r) && (nc =? c)) || nonzero (Z.land b (shl 1 (nr * 8 + nc)))).

Definition winDir (b r c dr dc : Z) : bool :=
  (nb b r c dr dc (-3) && nb b r c dr dc (-2) && nb b r c dr dc (-1))
  || (nb b r c dr dc (-2) && nb b r c dr dc (-1) && nb b r c dr dc 1)
  || (nb b r c dr dc (-1) && nb b r c dr dc 1 && nb b r c dr dc 2)
  || (nb b r c dr dc 1 && nb b r c dr dc 2 && nb b r c dr dc 3).

Definition loseDir (b r c dr dc : Z) : bool :=
  (nb b r c dr dc (-2) && nb b r c dr dc (-1))
  || (nb b r c dr dc (-1) && nb b r c dr dc 1)
  || (nb b r c dr dc 1 && nb b r c dr dc 2).

Definition winAt (b r c : Z) : bool :=
  winDir b r c 0 1 || winDir b r c 1 0 || winDir b r c 1 1 || winDir b r c 1 (-1).

Definition loseAt (b r c : Z) : bool :=
  loseDir b r c 0 1 || loseDir b r c 1 0 || loseDir b r c 1 1 || loseDir b r c 1 (-1).

Definition slowWin (b j : Z) : bool :=
  hasRun b (Z.quot j 8) (Z.rem j 8) 4 [-3; -2; -1; 0] [0; 1; 2; 3].
Definition slowLose (b j : Z) : bool :=
  hasRun b (Z.quot j 8) (Z.rem j 8) 3 [-2; -1; 0] [0; 1; 2].

Definition cellsem (X : Z) (f : Z -> Z -> bool) : Prop :=
  forall r c, 0 <= r < 8 -> 0 <= c < 8 -> Z.testbit X (8 * r + c) = f r c.

(** Runs of stones and the four detector words of [CheckWin] and
    [CheckLose], one per direction. *)

Definition fourRun (b r c dr dc : Z) : bool :=
  cell b r c && nb b r c dr dc 1 && nb b r c dr dc 2 && nb b r c dr dc 3.

Definition threeRun (b r c dr dc : Z) : bool :=
  cell b r c && nb b r c dr dc 1 && nb b r c dr dc 2.

Definition highzero (x : Z) : Prop := forall n, 64 <= n -> Z.testbit x n = false.

Definition shiftmask (m k j dc : Z) : Prop :=
  forall r c, 0 <= r < 8 -> 0 <= c < 8 ->
    8 * r + c + k < 64 -> Z.testbit m (8 * r + c) = incol (c + j * dc).

Definition winH (bb : Z) : Z :=
  let h := Z.land (Z.land bb (shr bb 1)) (bnot FileH) in
  Z.land (Z.land h (shr h 2)) (bnot (Z.lor FileH (shr FileH 1))).
Definition winV (bb : Z) : Z :=
  let v := Z.land bb (shr bb 8) in Z.land v (shr v 16).
Definition winD1 (bb : Z) : Z :=
  let d1 := Z.land (Z.land bb (shr bb 9)) (bnot FileH) in
  Z.land (Z.land d1 (shr d1 18)) (bnot (Z.lor FileH (shr FileH 9))).
Definition winD2 (bb : Z) : Z :=
  let d2 := Z.land (Z.land bb (shr bb 7)) (bnot FileA) in
  Z.land (Z.land d2 (shr d2 14)) (bnot (Z.lor FileA (shr FileA 7))).

Definition loseH (bb : Z) : Z :=
  let h := Z.land (Z.land bb (shr bb 1)) (bnot FileH) in
  Z.land (Z.land h (shr h 1)) (bnot FileH).
Definition loseV (bb : Z) : Z :=
  let v := Z.land bb (shr bb 8) in Z.land v (shr v 8).
Definition loseD1 (bb : Z) : Z :=
  let d1 := Z.land (Z.land bb (shr bb 9)) (bnot FileH) in
  Z.land (Z.land d1 (shr d1 9)) (bnot FileH).
Definition loseD2 (bb : Z) : Z :=
  let d2 := Z.land (Z.land bb (shr bb 7)) (bnot FileA) in
  Z.land (Z.land d2 (shr d2 7)) (bnot FileA).

(** Every child of [n] has a non-negative visit count. *)
Definition childVisitsOK (n : MCTSNode) : Prop :=
  forall e, In e (Node.children n) -> 0 <= Node.visits (snd e).

(** Number of empty cells of an occupancy word. *)
Definition emptyCount (occ : Z) : nat :=
  List.length (filter (fun i => negb (Z.testbit occ i)) cells).

(** Plays a list of (player, cell) moves through [SimulateStep], each
    step starting from the board and the player list of the previous
    state. *)
Fixpoint playMoves (st : State) (moves : list (Z * Z)) : option State :=
  match moves with
  | [] => Some st
  | (p, idx) :: rest =>
      match SimulateStep (board st) (remainingPlayers st) p (MoveFromIndex idx) with
      | None => None
      | Some st' => playMoves st' rest
      end
  end.

(** ** Positions and oracles used in witnesses and examples *)

Definition c2_board : Board := mkBoard 7 0x070000 0 0x070007.

Definition c3_board : Board := mkBoard 7 0 0 7.

Definition newGameState : State := mkState emptyBoard 0 [0; 1; 2] (-1).

Definition lastManMoves : list (Z * Z) :=
  [(0, 0); (1, 8); (0, 1); (1, 9); (0, 2); (1, 10)].

Definition c4_board : Board := mkBoard 3 0 0 3.

(** A generator that always draws 0. *)
Definition zeroIntn (g : unit) (n : Z) : Z * unit := (0, g).

Definition startGS : GameState := mkGameState emptyBoard 0 7 0 (-1).

(** Player 0 (stones on A1, B1) is to move; player 1 (stones on A3, B3,
    D3) threatens to win at C3; player 2 has stones on A6, B6.  The
    forced-move set is the single cell C3 (index 18). *)
Definition c7_board : Board :=
  mkBoard 0x3 0xB0000 0x30000000000 0x300000B0003.
Definition c7_state : GameState := mkGameState c7_board 0 7 0 (-1).

(** A stand-in for [GameState.ApplyMove] that changes the state on every
    call: it places the stone and bumps the hash. *)
Definition c7_apply (gs : GameState) (m : Move) : GameState :=
  mkGameState (Set_ (gsBoard gs) (ToIndex m) (PlayerID gs)) (PlayerID gs)
              (ActiveMask gs) (Hash gs + 1) (WinnerID gs).

Definition leafNode (v : Z) : MCTSNode := Node.mk emptyBoard [] v 0 0 [] (-1) [].

(** Two children in insertion order: A1 first, then B1, one visit each. *)
Definition tiedChildren : list (Move * MCTSNode) :=
  [(mkMove 0 0, leafNode 1); (mkMove 0 1, leafNode 1)].

(** A [range] that yields the entries in the order they were inserted,
    and a choice function that never finds a child. *)
Definition insertionOrder (l : list (Move * MCTSNode)) : list (Move * MCTSNode) := l.
Definition noChild (n : MCTSNode) : option Move := None.

(** A [range] that yields the entries in the reverse of the order they
    were inserted. *)
Definition reverseOrder (l : list (Move * MCTSNode)) : list (Move * MCTSNode) :=
  rev l.

(** A generator whose state is a counter: the [k]-th draw from [n]
    values is [k mod n]. *)
Definition counterIntn (g : Z) (n : Z) : Z * Z := (g mod n, g + 1).

(** The search tree after two rounds from the empty board with the
    counter generator: the root has two children, A1 (expanded first)
    and E6 (expanded second), one visit each. *)
Definition c9_root : MCTSNode :=
  Eval vm_compute in
    match searchRounds Z counterIntn noChild 2 0
            (searchRoot emptyBoard [] [0; 1; 2] 0) with
    | Done (_, r) => r
    | _ => leafNode 0
    end.

(** A position in which the mover (player 0, stones on B2, C2, D2) can
    win at A2 or E2 and nobody threatens. *)
Definition c8_board : Board := mkBoard 0xE00 0 0 0xE00.
Definition c8_state : GameState := mkGameState c8_board 0 7 0 (-1).

(** A tree search that never produces a move. *)
Definition noSearch (iterations : Z) (bd : Board) (players : list Z)
    (turnIdx : nat) : option Move := None.

Definition c8_forced_board : Board := mkBoard 0x7 0x70 0x80 0xF7.
Definition c8_forced_state : GameState := mkGameState c8_forced_board 0 7 0 (-1).

(* ================================================================== *)
(** * Part II: lemmas and theorems *)
(* ================================================================== *)

Lemma u64_high x i : u64 x -> 64 <= i -> Z.testbit x i = false.
Proof.
  intros [H0 H1] Hi.
  destruct (Z.eq_dec x 0) as [->|Hn]; [apply Z.testbit_0_l|].
  apply Z.bits_above_log2; [lia|].
  apply Z.lt_le_trans with 64; [|lia].
  apply Z.log2_lt_pow2; lia.
Qed.

Lemma Full_bits i : 0 <= i < 64 -> Z.testbit Full i = true.
Proof.
  intros H. change Full with (Z.ones 64). apply Z.ones_spec_low. lia.
Qed.

Lemma Full_bits_high i : 64 <= i -> Z.testbit Full i = false.
Proof.
  intros H. change Full with (Z.ones 64). apply Z.ones_spec_high. lia.
Qed.

Lemma shl_bits x k i : 0 <= i < 64 -> Z.testbit (shl x k) i = Z.testbit x (i - k).
Proof.
  intros H. unfold shl. destruct (Z.leb_spec 64 k).
  - rewrite Z.testbit_0_l, Z.testbit_neg_r by lia. reflexivity.
  - rewrite Z.land_spec, Full_bits by lia.
    rewrite Z.shiftl_spec by lia. apply andb_true_r.
Qed.

Lemma shr_bits x k i : 0 <= i -> Z.testbit (shr x k) i = Z.testbit x (i + k).
Proof. intros H. unfold shr. apply Z.shiftr_spec. lia. Qed.

Lemma bnot_bits x i : 0 <= i < 64 -> Z.testbit (bnot x) i = negb (Z.testbit x i).
Proof.
  intros H. unfold bnot. rewrite Z.lxor_spec, Full_bits by lia.
  apply xorb_true_r.
Qed.

Lemma pow2_bits i j : 0 <= i < 64 -> 0 <= j -> Z.testbit (shl 1 i) j = (j =? i).
Proof.
  intros Hi Hj. unfold shl. destruct (Z.leb_spec 64 i); [lia|].
  rewrite Z.land_spec.
  rewrite Z.shiftl_spec by lia.
  destruct (Z.eqb_spec j i) as [->|Hne].
  - rewrite Z.sub_diag, Full_bits by lia. reflexivity.
  - destruct (Z_lt_le_dec j i).
    + rewrite Z.testbit_neg_r by lia. reflexivity.
    + replace (Z.testbit 1 (j - i)) with false; [reflexivity|].
      symmetry. change 1 with (2 ^ 0). apply Z.pow2_bits_false. lia.
Qed.

Lemma land_pow2_nonzero b i : 0 <= i < 64 ->
  nonzero (Z.land b (shl 1 i)) = Z.testbit b i.
Proof.
  intros Hi. unfold nonzero.
  destruct (Z.testbit b i) eqn:E.
  - destruct (Z.eqb_spec (Z.land b (shl 1 i)) 0) as [H0|]; [|reflexivity].
    assert (Z.testbit (Z.land b (shl 1 i)) i = false) by (rewrite H0; apply Z.testbit_0_l).
    rewrite Z.land_spec, E, pow2_bits, Z.eqb_refl in H by lia. discriminate.
  - replace (Z.land b (shl 1 i)) with 0; [reflexivity|].
    symmetry. apply Z.bits_inj'. intros n Hn.
    rewrite Z.land_spec, pow2_bits, Z.testbit_0_l by lia.
    destruct (Z.eqb_spec n i) as [->|]; [rewrite E|rewrite andb_false_r]; reflexivity.
Qed.

Lemma range8_In x : 0 <= x < 8 -> In x range8.
Proof.
  intros H. unfold range8.
  assert (x = 0 \/ x = 1 \/ x = 2 \/ x = 3 \/ x = 4 \/ x = 5 \/ x = 6 \/ x = 7) by lia.
  simpl. intuition.
Qed.

Lemma cells_forall (P : Z -> Z -> bool) :
  forallb (fun r => forallb (fun c => P r c) range8) range8 = true ->
  forall r c, 0 <= r < 8 -> 0 <= c < 8 -> P r c = true.
Proof.
  intros H r c Hr Hc.
  rewrite forallb_forall in H. specialize (H r (range8_In r Hr)).
  rewrite forallb_forall in H. exact (H c (range8_In c Hc)).
Qed.

Lemma colmask_check m p :
  forallb (fun r => forallb (fun c => Bool.eqb (Z.testbit m (8 * r + c)) (p c)) range8) range8 = true ->
  colmask m p.
Proof.
  intros H r c Hr Hc. apply eqb_prop.
  exact (cells_forall (fun r c => Bool.eqb (Z.testbit m (8 * r + c)) (p c)) H r c Hr Hc).
Qed.

Lemma shr_cell b m k j dr dc r c :
  u64 b -> 0 <= r < 8 -> 0 <= c < 8 -> 0 <= dr -> 0 < j ->
  k = j * (8 * dr + dc) -> 0 <= k ->
  colmask m (fun c => incol (c + j * dc)) ->
  Z.testbit (Z.land (shr b k) m) (8 * r + c) = nb b r c dr dc j.
Proof.
  intros Hb Hr Hc Hdr Hj Hk Hk0 Hm.
  rewrite Z.land_spec, shr_bits, (Hm r c Hr Hc) by lia.
  unfold nb, cell, inBoard, incol.
  replace (8 * r + c + k) with (8 * (r + j * dr) + (c + j * dc)) by (subst k; ring).
  assert (0 <= j * dr) by (apply Z.mul_nonneg_nonneg; lia).
  destruct (Z.leb_spec 0 (c + j * dc)); destruct (Z.ltb_spec (c + j * dc) 8);
    rewrite ?andb_false_r; cbn [andb]; try reflexivity.
  destruct (Z.leb_spec 0 (r + j * dr)); [|lia].
  destruct (Z.ltb_spec (r + j * dr) 8); cbn [andb].
  - apply andb_true_r.
  - rewrite (u64_high b) by (auto; lia). reflexivity.
Qed.

Lemma shl_sem t m k j dr dc f r c :
  (forall r' c', 0 <= r' < 8 -> 0 <= c' < 8 -> Z.testbit t (8 * r' + c') = f r' c') ->
  0 <= r < 8 -> 0 <= c < 8 -> 0 <= dr -> 0 < j ->
  k = j * (8 * dr + dc) ->
  colmask m (fun c => incol (c + (- j) * dc)) ->
  Z.testbit (Z.land (shl t k) m) (8 * r + c) =
  inBoard (r + (- j) * dr) (c + (- j) * dc) && f (r + (- j) * dr) (c + (- j) * dc).
Proof.
  intros Ht Hr Hc Hdr Hj Hk Hm.
  rewrite Z.land_spec, shl_bits, (Hm r c Hr Hc) by lia.
  unfold inBoard, incol.
  replace (8 * r + c - k) with (8 * (r + - j * dr) + (c + - j * dc)) by (subst k; ring).
  assert (0 <= j * dr) by (apply Z.mul_nonneg_nonneg; lia).
  destruct (Z.leb_spec 0 (c + - j * dc)); destruct (Z.ltb_spec (c + - j * dc) 8);
    rewrite ?andb_false_r; cbn [andb]; try reflexivity.
  destruct (Z.ltb_spec (r + - j * dr) 8); [|lia].
  destruct (Z.leb_spec 0 (r + - j * dr)); cbn [andb].
  - rewrite andb_true_r. apply Ht; lia.
  - rewrite Z.testbit_neg_r by lia. reflexivity.
Qed.

Lemma shr_cell0 b k j dr r c :
  u64 b -> 0 <= r < 8 -> 0 <= c < 8 -> 0 <= dr -> 0 < j ->
  k = j * (8 * dr + 0) -> 0 <= k ->
  Z.testbit (shr b k) (8 * r + c) = nb b r c dr 0 j.
Proof.
  intros Hb Hr Hc Hdr Hj Hk Hk0.
  rewrite <- (shr_cell b Full k j dr 0 r c); auto.
  - rewrite Z.land_spec, Full_bits by lia. now rewrite andb_true_r.
  - intros r' c' Hr' Hc'. rewrite Full_bits by lia.
    unfold incol. rewrite Z.mul_0_r, Z.add_0_r.
    destruct (Z.leb_spec 0 c'); destruct (Z.ltb_spec c' 8); first [reflexivity | lia].
Qed.

Lemma shl_sem0 t k j dr f r c :
  (forall r' c', 0 <= r' < 8 -> 0 <= c' < 8 -> Z.testbit t (8 * r' + c') = f r' c') ->
  0 <= r < 8 -> 0 <= c < 8 -> 0 <= dr -> 0 < j ->
  k = j * (8 * dr + 0) ->
  Z.testbit (shl t k) (8 * r + c) =
  inBoard (r + (- j) * dr) (c + (- j) * 0) && f (r + (- j) * dr) (c + (- j) * 0).
Proof.
  intros Ht Hr Hc Hdr Hj Hk.
  rewrite <- (shl_sem t Full k j dr 0 f r c); auto.
  - rewrite Z.land_spec, Full_bits by lia. now rewrite andb_true_r.
  - intros r' c' Hr' Hc'. rewrite Full_bits by lia.
    unfold incol. rewrite Z.mul_0_r, Z.add_0_r.
    destruct (Z.leb_spec 0 c'); destruct (Z.ltb_spec c' 8); first [reflexivity | lia].
Qed.

Lemma nb_shift b r c dr dc a i :
  nb b (r + a * dr) (c + a * dc) dr dc i = nb b r c dr dc (a + i).
Proof. unfold nb. f_equal; ring. Qed.

Lemma cell_nb b r c dr dc a :
  cell b (r + a * dr) (c + a * dc) = nb b r c dr dc a.
Proof. reflexivity. Qed.

Lemma cell_absorb b x y p : inBoard x y && (cell b x y && p) = cell b x y && p.
Proof. unfold cell. destruct (inBoard x y); reflexivity. Qed.

Lemma cell_self b r c : 0 <= r < 8 -> 0 <= c < 8 -> cell b r c = Z.testbit b (8 * r + c).
Proof.
  intros Hr Hc. unfold cell, inBoard.
  destruct (Z.leb_spec 0 r); destruct (Z.ltb_spec r 8);
  destruct (Z.leb_spec 0 c); destruct (Z.ltb_spec c 8); first [reflexivity | lia].
Qed.

Lemma fold_count (p : Z -> bool) ks a :
  let res := fold_left (fun cnt k => if p k then cnt + 1 else cnt) ks a in
  a <= res <= a + Z.of_nat (length ks) /\
  (res = a + Z.of_nat (length ks) <-> forallb p ks = true).
Proof.
  revert a. induction ks as [|k ks IH]; intros a; cbn [fold_left forallb length].
  - split; [lia|]. split; auto. intros _. lia.
  - rewrite Nat2Z.inj_succ. destruct (p k); cbn [andb].
    + destruct (IH (a + 1)) as [H1 H2]. split; [lia|].
      rewrite <- H2. split; lia.
    + destruct (IH a) as [H1 H2]. split; [lia|].
      split; [lia|discriminate].
Qed.

Lemma countRun_count b r c dr dc so ks :
  countRun b r c (dr, dc) so ks =
  fold_left (fun cnt k => if runCell b r c dr dc so k then cnt + 1 else cnt) ks 0.
Proof.
  unfold countRun. generalize 0. induction ks as [|k ks IH]; intros a; cbn [fold_left].
  - reflexivity.
  - rewrite IH. f_equal. unfold runCell. cbn [fst snd].
    destruct (inBoard _ _); cbn [andb]; reflexivity.
Qed.

Lemma runCell_nb b r c dr dc so k :
  0 <= r < 8 -> 0 <= c < 8 -> (dr <> 0 \/ dc <> 0) ->
  runCell b r c dr dc so k =
  if so + k =? 0 then true else nb b r c dr dc (so + k).
Proof.
  intros Hr Hc Hd. unfold runCell, nb.
  destruct (Z.eqb_spec (so + k) 0) as [E|E].
  - rewrite E, !Z.mul_0_l, !Z.add_0_r, !Z.eqb_refl.
    unfold inBoard.
    destruct (Z.leb_spec 0 r); destruct (Z.ltb_spec r 8);
    destruct (Z.leb_spec 0 c); destruct (Z.ltb_spec c 8); first [reflexivity | lia].
  - set (nr := r + (so + k) * dr). set (nc := c + (so + k) * dc).
    assert (Hs : (nr =? r) && (nc =? c) = false).
    { destruct (Z.eqb_spec nr r) as [E1|]; [|reflexivity].
      destruct (Z.eqb_spec nc c) as [E2|]; [|reflexivity].
      exfalso. unfold nr, nc in *.
      assert ((so + k) * dr = 0) by lia. assert ((so + k) * dc = 0) by lia.
      apply Z.mul_eq_0 in H, H0. lia. }
    rewrite Hs. cbn [orb]. unfold cell.
    destruct (inBoard nr nc) eqn:Hin; [|reflexivity]. cbn [andb].
    unfold inBoard in Hin.
    apply andb_prop in Hin. destruct Hin as [Hin H4].
    apply andb_prop in Hin. destruct Hin as [Hin H3].
    apply andb_prop in Hin. destruct Hin as [H1 H2].
    apply Z.leb_le in H1, H3. apply Z.ltb_lt in H2, H4.
    rewrite land_pow2_nonzero by lia. f_equal. ring.
Qed.

Lemma forallb_pointwise (A : Type) (f g : A -> bool) l :
  (forall x, f x = g x) -> forallb f l = forallb g l.
Proof.
  intros H. induction l as [|x l IH]; cbn [forallb]; [reflexivity|].
  now rewrite H, IH.
Qed.

Lemma countRun_full b r c dr dc so ks len :
  0 <= r < 8 -> 0 <= c < 8 -> (dr <> 0 \/ dc <> 0) ->
  len = Z.of_nat (length ks) ->
  (countRun b r c (dr, dc) so ks =? len) =
  forallb (fun k => if so + k =? 0 then true else nb b r c dr dc (so + k)) ks.
Proof.
  intros Hr Hc Hd Hlen. rewrite countRun_count.
  destruct (fold_count (runCell b r c dr dc so) ks 0) as [H1 H2].
  cbv zeta in H1, H2. rewrite Z.add_0_l in H1, H2. subst len.
  rewrite <- (forallb_pointwise Z (runCell b r c dr dc so)
             (fun k => if so + k =? 0 then true else nb b r c dr dc (so + k)))
    by (intros; apply runCell_nb; auto).
  destruct (forallb (runCell b r c dr dc so) ks).
  - apply Z.eqb_eq. apply H2. reflexivity.
  - apply Z.eqb_neq. intros E. apply H2 in E. discriminate.
Qed.

Lemma slow_winDir b r c dr dc :
  0 <= r < 8 -> 0 <= c < 8 -> (dr <> 0 \/ dc <> 0) ->
  (countRun b r c (dr, dc) (-3) [0; 1; 2; 3] =? 4)
  || ((countRun b r c (dr, dc) (-2) [0; 1; 2; 3] =? 4)
      || ((countRun b r c (dr, dc) (-1) [0; 1; 2; 3] =? 4)
          || ((countRun b r c (dr, dc) 0 [0; 1; 2; 3] =? 4) || false)))
  = winDir b r c dr dc.
Proof.
  intros Hr Hc Hd.
  rewrite !(countRun_full b r c dr dc) by (auto; reflexivity).
  cbn [forallb]. unfold winDir.
  change (
    (nb b r c dr dc (-3) && (nb b r c dr dc (-2) && (nb b r c dr dc (-1) && (true && true))))
    || ((nb b r c dr dc (-2) && (nb b r c dr dc (-1) && (true && (nb b r c dr dc 1 && true))))
    || ((nb b r c dr dc (-1) && (true && (nb b r c dr dc 1 && (nb b r c dr dc 2 && true))))
    || ((true && (nb b r c dr dc 1 && (nb b r c dr dc 2 && (nb b r c dr dc 3 && true))))
    || false))) =
    (nb b r c dr dc (-3) && nb b r c dr dc (-2) && nb b r c dr dc (-1))
    || (nb b r c dr dc (-2) && nb b r c dr dc (-1) && nb b r c dr dc 1)
    || (nb b r c dr dc (-1) && nb b r c dr dc 1 && nb b r c dr dc 2)
    || (nb b r c dr dc 1 && nb b r c dr dc 2 && nb b r c dr dc 3)).
  destruct (nb b r c dr dc (-3)), (nb b r c dr dc (-2)), (nb b r c dr dc (-1)),
    (nb b r c dr dc 1), (nb b r c dr dc 2), (nb b r c dr dc 3); reflexivity.
Qed.

Lemma slow_loseDir b r c dr dc :
  0 <= r < 8 -> 0 <= c < 8 -> (dr <> 0 \/ dc <> 0) ->
  (countRun b r c (dr, dc) (-2) [0; 1; 2] =? 3)
  || ((countRun b r c (dr, dc) (-1) [0; 1; 2] =? 3)
      || ((countRun b r c (dr, dc) 0 [0; 1; 2] =? 3) || false))
  = loseDir b r c dr dc.
Proof.
  intros Hr Hc Hd.
  rewrite !(countRun_full b r c dr dc) by (auto; reflexivity).
  cbn [forallb]. unfold loseDir.
  change (
    (nb b r c dr dc (-2) && (nb b r c dr dc (-1) && (true && true)))
    || ((nb b r c dr dc (-1) && (true && (nb b r c dr dc 1 && true)))
    || ((true && (nb b r c dr dc 1 && (nb b r c dr dc 2 && true)))
    || false)) =
    (nb b r c dr dc (-2) && nb b r c dr dc (-1))
    || (nb b r c dr dc (-1) && nb b r c dr dc 1)
    || (nb b r c dr dc 1 && nb b r c dr dc 2)).
  destruct (nb b r c dr dc (-2)), (nb b r c dr dc (-1)),
    (nb b r c dr dc 1), (nb b r c dr dc 2); reflexivity.
Qed.

Lemma hasRun_win b r c :
  0 <= r < 8 -> 0 <= c < 8 ->
  hasRun b r c 4 [-3; -2; -1; 0] [0; 1; 2; 3] = winAt b r c.
Proof.
  intros Hr Hc. unfold hasRun, directions, winAt. cbn [existsb].
  rewrite !slow_winDir by (auto; lia).
  rewrite orb_false_r, !orb_assoc. reflexivity.
Qed.

Lemma hasRun_lose b r c :
  0 <= r < 8 -> 0 <= c < 8 ->
  hasRun b r c 3 [-2; -1; 0] [0; 1; 2] = loseAt b r c.
Proof.
  intros Hr Hc. unfold hasRun, directions, loseAt. cbn [existsb].
  rewrite !slow_loseDir by (auto; lia).
  rewrite orb_false_r, !orb_assoc. reflexivity.
Qed.

Ltac bool_clean :=
  repeat (progress (cbn [orb andb negb];
    rewrite ?andb_true_r, ?andb_false_r, ?orb_true_r, ?orb_false_r)); auto.

Lemma slow_fold b e idxs :
  (forall i, In i idxs -> 0 <= i < 64) ->
  forall w0 l0 j, 0 <= j ->
  Z.testbit (fst (fold_left (slowStep b e) idxs (w0, l0))) j =
    Z.testbit w0 j || (existsb (Z.eqb j) idxs && Z.testbit e j && slowWin b j)
  /\
  Z.testbit (snd (fold_left (slowStep b e) idxs (w0, l0))) j =
    Z.testbit l0 j ||
    (existsb (Z.eqb j) idxs && Z.testbit e j && negb (slowWin b j) && slowLose b j).
Proof.
  induction idxs as [|i idxs IH]; intros Hin w0 l0 j Hj; cbn [fold_left existsb].
  - cbn [fst snd andb]. rewrite !orb_false_r. auto.
  - assert (Hi : 0 <= i < 64) by (apply Hin; left; reflexivity).
    assert (Hin' : forall i, In i idxs -> 0 <= i < 64) by (intros; apply Hin; right; auto).
    unfold slowStep at 2 4.
    assert (He : (Z.land e (shl 1 i) =? 0) = negb (Z.testbit e i)).
    { rewrite <- (land_pow2_nonzero e i Hi). unfold nonzero.
      now rewrite negb_involutive. }
    rewrite He. fold (slowWin b i). fold (slowLose b i).
    destruct (Z.testbit e i) eqn:Ee; cbn [negb].
    + destruct (slowWin b i) eqn:Ew.
      * destruct (IH Hin' (Z.lor w0 (shl 1 i)) l0 j Hj) as [H1 H2].
        rewrite H1, H2, Z.lor_spec, pow2_bits by lia.
        destruct (Z.eqb_spec j i) as [->|]; rewrite ?Ee, ?Ew; bool_clean.
      * destruct (slowLose b i) eqn:El.
        -- destruct (IH Hin' w0 (Z.lor l0 (shl 1 i)) j Hj) as [H1 H2].
           rewrite H1, H2, Z.lor_spec, pow2_bits by lia.
           destruct (Z.eqb_spec j i) as [->|]; rewrite ?Ee, ?Ew, ?El; bool_clean.
        -- destruct (IH Hin' w0 l0 j Hj) as [H1 H2].
           rewrite H1, H2.
           destruct (Z.eqb_spec j i) as [->|]; rewrite ?Ee, ?Ew, ?El; bool_clean.
    + destruct (IH Hin' w0 l0 j Hj) as [H1 H2].
      rewrite H1, H2.
      destruct (Z.eqb_spec j i) as [->|]; rewrite ?Ee; bool_clean.
Qed.

Lemma cells_In i : In i cells <-> 0 <= i < 64.
Proof.
  unfold cells. rewrite in_map_iff. split.
  - intros [n [<- Hn]]. apply in_seq in Hn. lia.
  - intros H. exists (Z.to_nat i). split; [lia|]. apply in_seq. lia.
Qed.

Lemma cells_existsb j : existsb (Z.eqb j) cells = (0 <=? j) && (j <? 64).
Proof.
  destruct (existsb (Z.eqb j) cells) eqn:E.
  - apply existsb_exists in E. destruct E as [x [Hx Hjx]].
    apply Z.eqb_eq in Hjx. subst x. apply cells_In in Hx.
    symmetry. apply andb_true_intro. split; [apply Z.leb_le|apply Z.ltb_lt]; lia.
  - destruct (Z.leb_spec 0 j); [|reflexivity].
    destruct (Z.ltb_spec j 64); [|reflexivity].
    exfalso. assert (existsb (Z.eqb j) cells = true).
    { apply existsb_exists. exists j. split; [apply cells_In; lia|apply Z.eqb_refl]. }
    congruence.
Qed.

Lemma slow_bits b e j :
  0 <= j ->
  Z.testbit (fst (slowGetWinsAndLosses b e)) j =
    (j <? 64) && Z.testbit e j && slowWin b j
  /\
  Z.testbit (snd (slowGetWinsAndLosses b e)) j =
    (j <? 64) && Z.testbit e j && negb (slowWin b j) && slowLose b j.
Proof.
  intros Hj. unfold slowGetWinsAndLosses.
  destruct (slow_fold b e cells (fun i H => proj1 (cells_In i) H) 0 0 j Hj) as [H1 H2].
  destruct (fold_left (slowStep b e) cells (0, 0)) as [w l] eqn:E.
  cbn [fst snd] in *.
  rewrite Z.testbit_0_l, cells_existsb in H1, H2. cbn [orb] in H1, H2.
  assert (H0 : (0 <=? j) = true) by (apply Z.leb_le; lia).
  rewrite H0 in H1, H2. cbn [andb] in H1, H2.
  split; [exact H1|].
  rewrite Z.land_spec, H2.
  destruct (Z.ltb_spec j 64) as [Hlt|Hge]; cbn [andb]; [|reflexivity].
  rewrite bnot_bits, H1 by lia.
  destruct (Z.ltb_spec j 64); [|lia]. cbn [andb].
  destruct (Z.testbit e j), (slowWin b j), (slowLose b j); reflexivity.
Qed.

Lemma pat_shl b Ri Rj i j k kk m dr dc x y r c :
  0 <= r < 8 -> 0 <= c < 8 -> 0 <= dr -> 0 < k -> kk = k * (8 * dr + dc) ->
  cellsem Ri (fun r c => nb b r c dr dc i) ->
  cellsem Rj (fun r c => nb b r c dr dc j) ->
  colmask m (fun c => incol (c + (- k) * dc)) ->
  x = - k + i -> y = - k + j ->
  Z.testbit (Z.land (shl (Z.land (Z.land b Ri) Rj) kk) m) (8 * r + c) =
  nb b r c dr dc (- k) && nb b r c dr dc x && nb b r c dr dc y.
Proof.
  intros Hr Hc Hdr Hk Hkk Hi Hj Hm -> ->.
  rewrite (shl_sem _ m kk k dr dc
             (fun r c => cell b r c && nb b r c dr dc i && nb b r c dr dc j)); auto.
  - rewrite !nb_shift, cell_nb.
    destruct (inBoard (r + - k * dr) (c + - k * dc)) eqn:E; cbn [andb]; [reflexivity|].
    assert (Hf : nb b r c dr dc (- k) = false) by (unfold nb, cell; rewrite E; reflexivity).
    rewrite Hf. reflexivity.
  - intros r' c' Hr' Hc'. rewrite !Z.land_spec, Hi, Hj, cell_self by auto. reflexivity.
Qed.

Lemma pat_shl0 b Ri Rj i j k kk dr x y r c :
  0 <= r < 8 -> 0 <= c < 8 -> 0 <= dr -> 0 < k -> kk = k * (8 * dr + 0) ->
  cellsem Ri (fun r c => nb b r c dr 0 i) ->
  cellsem Rj (fun r c => nb b r c dr 0 j) ->
  x = - k + i -> y = - k + j ->
  Z.testbit (shl (Z.land (Z.land b Ri) Rj) kk) (8 * r + c) =
  nb b r c dr 0 (- k) && nb b r c dr 0 x && nb b r c dr 0 y.
Proof.
  intros Hr Hc Hdr Hk Hkk Hi Hj -> ->.
  rewrite (shl_sem0 _ kk k dr
             (fun r c => cell b r c && nb b r c dr 0 i && nb b r c dr 0 j)); auto.
  - rewrite !nb_shift, cell_nb.
    destruct (inBoard (r + - k * dr) (c + - k * 0)) eqn:E; cbn [andb]; [reflexivity|].
    assert (Hf : nb b r c dr 0 (- k) = false) by (unfold nb, cell; rewrite E; reflexivity).
    rewrite Hf. reflexivity.
  - intros r' c' Hr' Hc'. rewrite !Z.land_spec, Hi, Hj, cell_self by auto. reflexivity.
Qed.

Lemma pat_and3 R1 R2 R3 f1 f2 f3 r c :
  0 <= r < 8 -> 0 <= c < 8 ->
  cellsem R1 f1 -> cellsem R2 f2 -> cellsem R3 f3 ->
  Z.testbit (Z.land (Z.land R1 R2) R3) (8 * r + c) = f1 r c && f2 r c && f3 r c.
Proof.
  intros Hr Hc H1 H2 H3. rewrite !Z.land_spec, H1, H2, H3 by auto. reflexivity.
Qed.

Ltac mask_check := apply colmask_check; vm_compute; reflexivity.

Lemma or_chain_win
  (h3 h2 h1 h0 v3 v2 v1 v0 d3 d2 d1 d0 a3 a2 a1 a0 : bool) :
  false || h3 || h0 || h2 || h1 || v3 || v0 || v2 || v1
  || d3 || d0 || d2 || d1 || a3 || a0 || a2 || a3 || a0 || a2 || a1
  = (h3 || h2 || h1 || h0) || (v3 || v2 || v1 || v0)
    || (d3 || d2 || d1 || d0) || (a3 || a2 || a1 || a0).
Proof.
  destruct h3, h2, h1, h0; cbn [orb]; try reflexivity;
  destruct v3, v2, v1, v0; cbn [orb]; try reflexivity;
  destruct d3, d2, d1, d0; cbn [orb]; try reflexivity;
  destruct a3, a2, a1, a0; reflexivity.
Qed.

Lemma GetWinningMoves_cell board pID r c :
  u64 (GetPlayerBoard board pID) -> 0 <= r < 8 -> 0 <= c < 8 ->
  Z.testbit (GetWinningMoves board pID) (8 * r + c) =
  winAt (GetPlayerBoard board pID) r c && negb (Z.testbit (Occupied board) (8 * r + c)).
Proof.
  intros Hb Hr Hc. unfold GetWinningMoves. cbv zeta.
  set (b := GetPlayerBoard board pID) in *.
  (* cell semantics of the shifted neighbours *)
  assert (H1 : cellsem (Z.land (shr b 1) (bnot FileH)) (fun r c => nb b r c 0 1 1)).
  { intros r' c' ? ?. apply shr_cell; auto; try lia. mask_check. }
  assert (H2 : cellsem (Z.land (shr b 2) (bnot (Z.lor FileH FileG))) (fun r c => nb b r c 0 1 2)).
  { intros r' c' ? ?. apply shr_cell; auto; try lia. mask_check. }
  assert (H3 : cellsem (Z.land (shr b 3) (bnot (Z.lor (Z.lor FileH FileG) FileF)))
                 (fun r c => nb b r c 0 1 3)).
  { intros r' c' ? ?. apply shr_cell; auto; try lia. mask_check. }
  assert (V1 : cellsem (shr b 8) (fun r c => nb b r c 1 0 1)).
  { intros r' c' ? ?. apply shr_cell0; auto; lia. }
  assert (V2 : cellsem (shr b 16) (fun r c => nb b r c 1 0 2)).
  { intros r' c' ? ?. apply shr_cell0; auto; lia. }
  assert (V3 : cellsem (shr b 24) (fun r c => nb b r c 1 0 3)).
  { intros r' c' ? ?. apply shr_cell0; auto; lia. }
  assert (D1 : cellsem (Z.land (shr b 9) (bnot FileH)) (fun r c => nb b r c 1 1 1)).
  { intros r' c' ? ?. apply shr_cell; auto; try lia. mask_check. }
  assert (D2 : cellsem (Z.land (shr b 18) (bnot (Z.lor FileH FileG))) (fun r c => nb b r c 1 1 2)).
  { intros r' c' ? ?. apply shr_cell; auto; try lia. mask_check. }
  assert (D3 : cellsem (Z.land (shr b 27) (bnot (Z.lor (Z.lor FileH FileG) FileF)))
                 (fun r c => nb b r c 1 1 3)).
  { intros r' c' ? ?. apply shr_cell; auto; try lia. mask_check. }
  assert (A1 : cellsem (Z.land (shr b 7) (bnot FileA)) (fun r c => nb b r c 1 (-1) 1)).
  { intros r' c' ? ?. apply shr_cell; auto; try lia. mask_check. }
  assert (A2 : cellsem (Z.land (shr b 14) (bnot (Z.lor FileA FileB))) (fun r c => nb b r c 1 (-1) 2)).
  { intros r' c' ? ?. apply shr_cell; auto; try lia. mask_check. }
  assert (A3 : cellsem (Z.land (shr b 21) (bnot (Z.lor (Z.lor FileA FileB) FileC)))
                 (fun r c => nb b r c 1 (-1) 3)).
  { intros r' c' ? ?. apply shr_cell; auto; try lia. mask_check. }
  rewrite Z.land_spec, !Z.lor_spec, Z.testbit_0_l.
  rewrite bnot_bits by lia.
  f_equal.
  (* horizontal *)
  rewrite (pat_shl b _ _ 1 2 3 3 _ 0 1 (-2) (-1) r c Hr Hc) by (auto; try lia; try reflexivity; mask_check).
  rewrite (pat_shl b _ _ 1 3 2 2 _ 0 1 (-1) 1 r c Hr Hc) by (auto; try lia; try reflexivity; mask_check).
  rewrite (pat_shl b _ _ 2 3 1 1 _ 0 1 1 2 r c Hr Hc) by (auto; try lia; try reflexivity; mask_check).
  rewrite (pat_and3 _ _ _ _ _ _ r c Hr Hc H1 H2 H3).
  (* vertical *)
  rewrite (pat_shl0 b _ _ 1 2 3 24 1 (-2) (-1) r c Hr Hc) by (auto; try lia; try reflexivity).
  rewrite (pat_shl0 b _ _ 1 3 2 16 1 (-1) 1 r c Hr Hc) by (auto; try lia; try reflexivity).
  rewrite (pat_shl0 b _ _ 2 3 1 8 1 1 2 r c Hr Hc) by (auto; try lia; try reflexivity).
  rewrite (pat_and3 _ _ _ _ _ _ r c Hr Hc V1 V2 V3).
  (* diagonal *)
  rewrite (pat_shl b _ _ 1 2 3 27 _ 1 1 (-2) (-1) r c Hr Hc) by (auto; try lia; try reflexivity; mask_check).
  rewrite (pat_shl b _ _ 1 3 2 18 _ 1 1 (-1) 1 r c Hr Hc) by (auto; try lia; try reflexivity; mask_check).
  rewrite (pat_shl b _ _ 2 3 1 9 _ 1 1 1 2 r c Hr Hc) by (auto; try lia; try reflexivity; mask_check).
  rewrite (pat_and3 _ _ _ _ _ _ r c Hr Hc D1 D2 D3).
  (* anti-diagonal *)
  rewrite (pat_shl b _ _ 1 2 3 21 _ 1 (-1) (-2) (-1) r c Hr Hc) by (auto; try lia; try reflexivity; mask_check).
  rewrite (pat_shl b _ _ 1 3 2 14 _ 1 (-1) (-1) 1 r c Hr Hc) by (auto; try lia; try reflexivity; mask_check).
  rewrite (pat_shl b _ _ 2 3 1 7 _ 1 (-1) 1 2 r c Hr Hc) by (auto; try lia; try reflexivity; mask_check).
  rewrite (pat_and3 _ _ _ _ _ _ r c Hr Hc A1 A2 A3).
  unfold winAt, winDir.
  apply or_chain_win.
Qed.

Lemma shr_lane b m k j dr dc :
  u64 b -> 0 <= dr -> 0 < j -> k = j * (8 * dr + dc) -> 0 <= k ->
  colmask m (fun c => incol (c + j * dc)) ->
  cellsem (Z.land m (shr b k)) (fun r c => nb b r c dr dc j).
Proof.
  intros Hb Hdr Hj Hk Hk0 Hm r c Hr Hc.
  rewrite Z.land_comm. apply shr_cell; auto.
Qed.

Lemma shl_lane b m k j dr dc :
  0 <= dr -> 0 < j -> k = j * (8 * dr + dc) ->
  colmask m (fun c => incol (c + (- j) * dc)) ->
  cellsem (Z.land m (shl b k)) (fun r c => nb b r c dr dc (- j)).
Proof.
  intros Hdr Hj Hk Hm r c Hr Hc.
  rewrite Z.land_comm.
  rewrite (shl_sem b m k j dr dc (cell b)); auto.
  - unfold nb, cell. destruct (inBoard _ _); reflexivity.
  - intros r' c' Hr' Hc'. symmetry. apply cell_self; auto.
Qed.

Lemma lane_w (e r1 r2 r3 l1 l2 l3 : bool) :
  e && (r1 && r2 && (r3 || l1) || l1 && l2 && (r1 || l3)) =
  e && ((l3 && l2 && l1) || (l2 && l1 && r1) || (l1 && r1 && r2) || (r1 && r2 && r3)).
Proof. destruct e, r1, r2, r3, l1, l2, l3; reflexivity. Qed.

Lemma lane_l (e r1 r2 l1 l2 : bool) :
  e && (l1 && l2 || (r1 && r2 || r1 && l1)) =
  e && ((l2 && l1) || (l1 && r1) || (r1 && r2)).
Proof. destruct e, r1, r2, l1, l2; reflexivity. Qed.

Lemma lanes_or (e x0 x1 x2 x3 : bool) :
  (e && x3 || e && x1) || (e && x2 || e && x0) = e && (x0 || x1 || x2 || x3).
Proof. destruct e, x0, x1, x2, x3; reflexivity. Qed.

Lemma getWinsAndLossesAVX2_cell b e r c :
  u64 b -> 0 <= r < 8 -> 0 <= c < 8 ->
  Z.testbit (fst (getWinsAndLossesAVX2 b e)) (8 * r + c) =
    Z.testbit e (8 * r + c) && winAt b r c
  /\
  Z.testbit (snd (getWinsAndLossesAVX2 b e)) (8 * r + c) =
    Z.testbit e (8 * r + c) && loseAt b r c.
Proof.
  intros Hb Hr Hc.
  cbv [getWinsAndLossesAVX2 VPBROADCASTQ VPSRLVQ VPSLLVQ VPAND VPOR ymap2
       shifts1 shifts2 shifts3 maskR1 maskR2 maskR3 maskL1 maskL2 maskL3
       VEXTRACTI128_1 lowX VPORX VPSHUFD_4E MOVQ fst snd].
  (* horizontal lane *)
  pose proof (shr_lane b 0x7F7F7F7F7F7F7F7F 1 1 0 1 Hb) as HR1.
  pose proof (shr_lane b 0x3F3F3F3F3F3F3F3F 2 2 0 1 Hb) as HR2.
  pose proof (shr_lane b 0x1F1F1F1F1F1F1F1F 3 3 0 1 Hb) as HR3.
  pose proof (shl_lane b 0xFEFEFEFEFEFEFEFE 1 1 0 1) as HL1.
  pose proof (shl_lane b 0xFCFCFCFCFCFCFCFC 2 2 0 1) as HL2.
  pose proof (shl_lane b 0xF8F8F8F8F8F8F8F8 3 3 0 1) as HL3.
  (* vertical lane *)
  pose proof (shr_lane b 0xFFFFFFFFFFFFFFFF 8 1 1 0 Hb) as VR1.
  pose proof (shr_lane b 0xFFFFFFFFFFFFFFFF 16 2 1 0 Hb) as VR2.
  pose proof (shr_lane b 0xFFFFFFFFFFFFFFFF 24 3 1 0 Hb) as VR3.
  pose proof (shl_lane b 0xFFFFFFFFFFFFFFFF 8 1 1 0) as VL1.
  pose proof (shl_lane b 0xFFFFFFFFFFFFFFFF 16 2 1 0) as VL2.
  pose proof (shl_lane b 0xFFFFFFFFFFFFFFFF 24 3 1 0) as VL3.
  (* diagonal lane *)
  pose proof (shr_lane b 0x7F7F7F7F7F7F7F7F 9 1 1 1 Hb) as DR1.
  pose proof (shr_lane b 0x3F3F3F3F3F3F3F3F 18 2 1 1 Hb) as DR2.
  pose proof (shr_lane b 0x1F1F1F1F1F1F1F1F 27 3 1 1 Hb) as DR3.
  pose proof (shl_lane b 0xFEFEFEFEFEFEFEFE 9 1 1 1) as DL1.
  pose proof (shl_lane b 0xFCFCFCFCFCFCFCFC 18 2 1 1) as DL2.
  pose proof (shl_lane b 0xF8F8F8F8F8F8F8F8 27 3 1 1) as DL3.
  (* anti-diagonal lane *)
  pose proof (shr_lane b 0xFEFEFEFEFEFEFEFE 7 1 1 (-1) Hb) as AR1.
  pose proof (shr_lane b 0xFCFCFCFCFCFCFCFC 14 2 1 (-1) Hb) as AR2.
  pose proof (shr_lane b 0xF8F8F8F8F8F8F8F8 21 3 1 (-1) Hb) as AR3.
  pose proof (shl_lane b 0x7F7F7F7F7F7F7F7F 7 1 1 (-1)) as AL1.
  pose proof (shl_lane b 0x3F3F3F3F3F3F3F3F 14 2 1 (-1)) as AL2.
  pose proof (shl_lane b 0x1F1F1F1F1F1F1F1F 21 3 1 (-1)) as AL3.
  repeat match goal with
  | H : _ -> _ |- _ =>
      first [ specialize (H ltac:(lia)) | specialize (H ltac:(reflexivity))
            | specialize (H ltac:(mask_check)) ]
  end.
  unfold cellsem in *. cbn [Z.opp] in *.
  repeat match goal with
  | H : forall r c, _ -> _ -> Z.testbit _ _ = _ |- _ => specialize (H r c Hr Hc)
  end.
  repeat match goal with
  | H : Z.testbit ?X _ = _ |- _ =>
      tryif is_var X then fail else
        (let x := fresh "x" in set (x := X) in *; clearbody x)
  end.
  repeat (rewrite Z.lor_spec || rewrite Z.land_spec).
  repeat match goal with H : Z.testbit _ _ = _ |- _ => rewrite H; clear H end.
  rewrite !lane_w, !lane_l, !lanes_or.
  unfold winAt, winDir, loseAt, loseDir. split; reflexivity.
Qed.

Lemma cell_index i :
  0 <= i < 64 ->
  0 <= i / 8 < 8 /\ 0 <= i mod 8 < 8 /\ i = 8 * (i / 8) + i mod 8.
Proof.
  intros H. split; [|split].
  - split; [apply Z.div_pos; lia|apply Z.div_lt_upper_bound; lia].
  - apply Z.mod_pos_bound. lia.
  - apply Z.div_mod. lia.
Qed.

(** ** What the terminal detectors detect *)

Lemma highzero_u64 x : u64 x -> highzero x.
Proof. intros H n Hn. apply u64_high; assumption. Qed.

Lemma highzero_land_l x y : highzero x -> highzero (Z.land x y).
Proof. intros H n Hn. rewrite Z.land_spec, H by assumption. reflexivity. Qed.

Lemma nonzero_exists x :
  highzero x -> nonzero x = existsb (fun n => Z.testbit x n) cells.
Proof.
  intros Hx. unfold nonzero.
  destruct (existsb (fun n => Z.testbit x n) cells) eqn:E.
  - apply existsb_exists in E. destruct E as [n [_ Hn]].
    destruct (Z.eqb_spec x 0) as [->|]; [|reflexivity].
    rewrite Z.testbit_0_l in Hn. discriminate.
  - replace x with 0; [reflexivity|].
    apply Z.bits_inj'. intros n Hn. rewrite Z.testbit_0_l. symmetry.
    destruct (Z_lt_le_dec n 64) as [Hlt|Hge]; [|apply Hx; assumption].
    destruct (Z.testbit x n) eqn:Eb; [|reflexivity].
    assert (existsb (fun n => Z.testbit x n) cells = true).
    { apply existsb_exists. exists n. split; [apply cells_In; lia|assumption]. }
    congruence.
Qed.

Lemma nonzero_cell x :
  highzero x ->
  (nonzero x = true <->
   exists r c, 0 <= r < 8 /\ 0 <= c < 8 /\ Z.testbit x (8 * r + c) = true).
Proof.
  intros Hx. rewrite nonzero_exists by assumption. rewrite existsb_exists. split.
  - intros [n [Hin Hn]]. apply cells_In in Hin.
    destruct (cell_index n Hin) as [Hr [Hc Hi]].
    exists (n / 8), (n mod 8). rewrite <- Hi. auto.
  - intros [r [c [Hr [Hc H]]]]. exists (8 * r + c). split; [apply cells_In; lia|assumption].
Qed.

(** A pair of adjacent stones: [bb & (bb >> s) & mask]. *)
Lemma pair_sem b m k dr dc :
  u64 b -> 0 <= dr -> k = 1 * (8 * dr + dc) -> 0 <= k ->
  colmask m (fun c => incol (c + 1 * dc)) ->
  cellsem (Z.land (Z.land b (shr b k)) m)
          (fun r c => cell b r c && nb b r c dr dc 1).
Proof.
  intros Hb Hdr Hk Hk0 Hm r c Hr Hc.
  rewrite <- Z.land_assoc, Z.land_spec, shr_cell with (j := 1) (dr := dr) (dc := dc);
    auto; try lia.
  rewrite cell_self by assumption. reflexivity.
Qed.

Lemma pair_sem0 b k dr :
  u64 b -> 0 <= dr -> k = 1 * (8 * dr + 0) -> 0 <= k ->
  cellsem (Z.land b (shr b k)) (fun r c => cell b r c && nb b r c dr 0 1).
Proof.
  intros Hb Hdr Hk Hk0 r c Hr Hc.
  rewrite Z.land_spec, shr_cell0 with (j := 1) (dr := dr); auto; try lia.
  rewrite cell_self by assumption. reflexivity.
Qed.

(** Shifting a board whose cells are described by [f]; the mask only has
    to be right where the shifted bit is still inside the word. *)
Lemma shr_sem t m k j dr dc f r c :
  cellsem t f -> highzero t ->
  0 <= r < 8 -> 0 <= c < 8 -> 0 <= dr -> 0 < j ->
  k = j * (8 * dr + dc) -> 0 <= k ->
  (8 * r + c + k < 64 -> Z.testbit m (8 * r + c) = incol (c + j * dc)) ->
  Z.testbit (Z.land (shr t k) m) (8 * r + c) =
  inBoard (r + j * dr) (c + j * dc) && f (r + j * dr) (c + j * dc).
Proof.
  intros Ht Hh Hr Hc Hdr Hj Hk Hk0 Hm.
  rewrite Z.land_spec, shr_bits by lia.
  destruct (Z_lt_le_dec (8 * r + c + k) 64) as [Hlt|Hge].
  - rewrite (Hm Hlt).
    replace (8 * r + c + k) with (8 * (r + j * dr) + (c + j * dc)) in * by (subst k; ring).
    assert (0 <= j * dr) by (apply Z.mul_nonneg_nonneg; lia).
    unfold inBoard, incol.
    destruct (Z.leb_spec 0 (c + j * dc)); destruct (Z.ltb_spec (c + j * dc) 8);
      cbn [andb]; rewrite ?andb_false_r; try reflexivity.
    destruct (Z.leb_spec 0 (r + j * dr)); [|lia].
    destruct (Z.ltb_spec (r + j * dr) 8); [|lia].
    cbn [andb]. rewrite andb_true_r. apply Ht; lia.
  - rewrite Hh by lia. cbn [andb].
    replace (8 * r + c + k) with (8 * (r + j * dr) + (c + j * dc)) in * by (subst k; ring).
    unfold inBoard.
    destruct (Z.ltb_spec (r + j * dr) 8); rewrite ?andb_false_r; cbn [andb]; try reflexivity.
    destruct (Z.ltb_spec (c + j * dc) 8); rewrite ?andb_false_r; cbn [andb]; try reflexivity.
    lia.
Qed.

Lemma shiftmask_check m k j dc :
  forallb (fun r => forallb (fun c =>
     negb (8 * r + c + k <? 64) || Bool.eqb (Z.testbit m (8 * r + c)) (incol (c + j * dc)))
     range8) range8 = true ->
  shiftmask m k j dc.
Proof.
  intros H r c Hr Hc Hlt.
  pose proof (cells_forall _ H r c Hr Hc) as H'. cbv beta in H'.
  destruct (Z.ltb_spec (8 * r + c + k) 64); [|lia]. cbn [negb orb] in H'.
  apply eqb_prop. exact H'.
Qed.

(** A run of [n+1] pairs: [p & (p >> k) & mask] where [p] marks pairs. *)
Lemma run_sem b p m k j dr dc r c :
  cellsem p (fun r c => cell b r c && nb b r c dr dc 1) -> highzero p ->
  0 <= r < 8 -> 0 <= c < 8 -> 0 <= dr -> 0 < j ->
  k = j * (8 * dr + dc) -> 0 <= k ->
  shiftmask m k j dc ->
  Z.testbit (Z.land (Z.land p (shr p k)) m) (8 * r + c) =
  cell b r c && nb b r c dr dc 1 && (nb b r c dr dc j && nb b r c dr dc (j + 1)).
Proof.
  intros Hp Hh Hr Hc Hdr Hj Hk Hk0 Hm.
  rewrite <- Z.land_assoc, Z.land_spec, Hp by assumption.
  rewrite (shr_sem p m k j dr dc _ r c Hp Hh); auto.
  rewrite nb_shift, cell_nb. f_equal.
  destruct (inBoard (r + j * dr) (c + j * dc)) eqn:E; cbn [andb]; [reflexivity|].
  unfold nb at 1, cell. rewrite E. reflexivity.
Qed.

Lemma run_sem0 b p k j dr r c :
  cellsem p (fun r c => cell b r c && nb b r c dr 0 1) -> highzero p ->
  0 <= r < 8 -> 0 <= c < 8 -> 0 <= dr -> 0 < j ->
  k = j * (8 * dr + 0) -> 0 <= k ->
  Z.testbit (Z.land p (shr p k)) (8 * r + c) =
  cell b r c && nb b r c dr 0 1 && (nb b r c dr 0 j && nb b r c dr 0 (j + 1)).
Proof.
  intros Hp Hh Hr Hc Hdr Hj Hk Hk0.
  rewrite <- (run_sem b p Full k j dr 0 r c); auto.
  - rewrite (Z.land_spec _ Full), Full_bits by lia. now rewrite andb_true_r.
  - intros r' c' Hr' Hc' _. rewrite Full_bits by lia.
    unfold incol. rewrite Z.mul_0_r, Z.add_0_r.
    destruct (Z.leb_spec 0 c'); destruct (Z.ltb_spec c' 8); first [reflexivity | lia].
Qed.

Ltac shiftmask_solve := apply shiftmask_check; vm_compute; reflexivity.

Section RunDetectors.
Variable bb : Z.
Hypothesis Hbb : u64 bb.

Let hz : highzero bb := highzero_u64 bb Hbb.

Lemma CheckWin_or :
  CheckWin bb =
  nonzero (winH bb) || nonzero (winV bb) || nonzero (winD1 bb) || nonzero (winD2 bb).
Proof.
  unfold CheckWin, winH, winV, winD1, winD2. cbv zeta.
  repeat match goal with |- context [if ?x then true else _] => destruct x end;
    reflexivity.
Qed.

Lemma winH_sem : cellsem (winH bb) (fun r c => fourRun bb r c 0 1).
Proof.
  intros r c Hr Hc. unfold winH. cbv zeta.
  rewrite (run_sem bb _ _ 2 2 0 1 r c); auto; try lia.
  - unfold fourRun. now rewrite !andb_assoc.
  - apply pair_sem; auto; try lia. mask_check.
  - apply highzero_land_l, highzero_land_l, hz.
  - shiftmask_solve.
Qed.

Lemma winV_sem : cellsem (winV bb) (fun r c => fourRun bb r c 1 0).
Proof.
  intros r c Hr Hc. unfold winV. cbv zeta.
  rewrite (run_sem0 bb _ 16 2 1 r c); auto; try lia.
  - unfold fourRun. now rewrite !andb_assoc.
  - apply pair_sem0; auto; lia.
  - apply highzero_land_l, hz.
Qed.

Lemma winD1_sem : cellsem (winD1 bb) (fun r c => fourRun bb r c 1 1).
Proof.
  intros r c Hr Hc. unfold winD1. cbv zeta.
  rewrite (run_sem bb _ _ 18 2 1 1 r c); auto; try lia.
  - unfold fourRun. now rewrite !andb_assoc.
  - apply pair_sem; auto; try lia. mask_check.
  - apply highzero_land_l, highzero_land_l, hz.
  - shiftmask_solve.
Qed.

Lemma winD2_sem : cellsem (winD2 bb) (fun r c => fourRun bb r c 1 (-1)).
Proof.
  intros r c Hr Hc. unfold winD2. cbv zeta.
  rewrite (run_sem bb _ _ 14 2 1 (-1) r c); auto; try lia.
  - unfold fourRun. now rewrite !andb_assoc.
  - apply pair_sem; auto; try lia. mask_check.
  - apply highzero_land_l, highzero_land_l, hz.
  - shiftmask_solve.
Qed.
End RunDetectors.

Section LoseDetectors.
Variable bb : Z.
Hypothesis Hbb : u64 bb.

Let hz : highzero bb := highzero_u64 bb Hbb.

Lemma CheckLose_or :
  CheckLose bb =
  nonzero (loseH bb) || nonzero (loseV bb) || nonzero (loseD1 bb) || nonzero (loseD2 bb).
Proof.
  unfold CheckLose, loseH, loseV, loseD1, loseD2. cbv zeta.
  repeat match goal with |- context [if ?x then true else _] => destruct x end;
    reflexivity.
Qed.

Lemma three_assoc (a b1 b2 : bool) : a && b1 && (b1 && b2) = a && b1 && b2.
Proof. destruct a, b1, b2; reflexivity. Qed.

Lemma loseH_sem : cellsem (loseH bb) (fun r c => threeRun bb r c 0 1).
Proof.
  intros r c Hr Hc. unfold loseH. cbv zeta.
  rewrite (run_sem bb _ _ 1 1 0 1 r c); auto; try lia.
  - apply three_assoc.
  - apply pair_sem; auto; try lia. mask_check.
  - apply highzero_land_l, highzero_land_l, hz.
  - shiftmask_solve.
Qed.

Lemma loseV_sem : cellsem (loseV bb) (fun r c => threeRun bb r c 1 0).
Proof.
  intros r c Hr Hc. unfold loseV. cbv zeta.
  rewrite (run_sem0 bb _ 8 1 1 r c); auto; try lia.
  - apply three_assoc.
  - apply pair_sem0; auto; lia.
  - apply highzero_land_l, hz.
Qed.

Lemma loseD1_sem : cellsem (loseD1 bb) (fun r c => threeRun bb r c 1 1).
Proof.
  intros r c Hr Hc. unfold loseD1. cbv zeta.
  rewrite (run_sem bb _ _ 9 1 1 1 r c); auto; try lia.
  - apply three_assoc.
  - apply pair_sem; auto; try lia. mask_check.
  - apply highzero_land_l, highzero_land_l, hz.
  - shiftmask_solve.
Qed.

Lemma loseD2_sem : cellsem (loseD2 bb) (fun r c => threeRun bb r c 1 (-1)).
Proof.
  intros r c Hr Hc. unfold loseD2. cbv zeta.
  rewrite (run_sem bb _ _ 7 1 1 (-1) r c); auto; try lia.
  - apply three_assoc.
  - apply pair_sem; auto; try lia. mask_check.
  - apply highzero_land_l, highzero_land_l, hz.
  - shiftmask_solve.
Qed.
End LoseDetectors.

Lemma detector_exists x f :
  highzero x -> cellsem x f ->
  (nonzero x = true <-> exists r c, 0 <= r < 8 /\ 0 <= c < 8 /\ f r c = true).
Proof.
  intros Hh Hs. rewrite nonzero_cell by assumption. split.
  - intros [r [c [Hr [Hc H]]]]. exists r, c. rewrite <- (Hs r c Hr Hc). auto.
  - intros [r [c [Hr [Hc H]]]]. exists r, c. rewrite (Hs r c Hr Hc). auto.
Qed.

Lemma directions_cases (P : Z -> Z -> Prop) :
  (exists dr dc, In (dr, dc) directions /\ P dr dc) <->
  P 0 1 \/ P 1 0 \/ P 1 1 \/ P 1 (-1).
Proof.
  unfold directions. split.
  - intros [dr [dc [Hin HP]]]. cbn [In] in Hin.
    destruct Hin as [E|[E|[E|[E|[]]]]]; inversion E; subst; auto.
  - intros [H|[H|[H|H]]]; [exists 0, 1|exists 1, 0|exists 1, 1|exists 1, (-1)];
      (split; [cbn [In]; auto|assumption]).
Qed.

Theorem CheckWin_spec bb :
  u64 bb ->
  (CheckWin bb = true <->
   exists dr dc, In (dr, dc) directions /\
     exists r c, 0 <= r < 8 /\ 0 <= c < 8 /\ fourRun bb r c dr dc = true).
Proof.
  intros Hbb. pose proof (highzero_u64 bb Hbb) as hz.
  rewrite (CheckWin_or bb), !orb_true_iff.
  rewrite (directions_cases (fun dr dc => exists r c, 0 <= r < 8 /\ 0 <= c < 8 /\ fourRun bb r c dr dc = true)).
  rewrite (detector_exists (winH bb) _ ltac:(unfold winH; cbv zeta; apply highzero_land_l, highzero_land_l, highzero_land_l, highzero_land_l, hz) (winH_sem bb Hbb)).
  rewrite (detector_exists (winV bb) _ ltac:(unfold winV; cbv zeta; apply highzero_land_l, highzero_land_l, hz) (winV_sem bb Hbb)).
  rewrite (detector_exists (winD1 bb) _ ltac:(unfold winD1; cbv zeta; apply highzero_land_l, highzero_land_l, highzero_land_l, highzero_land_l, hz) (winD1_sem bb Hbb)).
  rewrite (detector_exists (winD2 bb) _ ltac:(unfold winD2; cbv zeta; apply highzero_land_l, highzero_land_l, highzero_land_l, highzero_land_l, hz) (winD2_sem bb Hbb)).
  tauto.
Qed.

Theorem CheckLose_spec bb :
  u64 bb ->
  (CheckLose bb = true <->
   exists dr dc, In (dr, dc) directions /\
     exists r c, 0 <= r < 8 /\ 0 <= c < 8 /\ threeRun bb r c dr dc = true).
Proof.
  intros Hbb. pose proof (highzero_u64 bb Hbb) as hz.
  rewrite (CheckLose_or bb), !orb_true_iff.
  rewrite (directions_cases (fun dr dc => exists r c, 0 <= r < 8 /\ 0 <= c < 8 /\ threeRun bb r c dr dc = true)).
  rewrite (detector_exists (loseH bb) _ ltac:(unfold loseH; cbv zeta; apply highzero_land_l, highzero_land_l, highzero_land_l, highzero_land_l, hz) (loseH_sem bb Hbb)).
  rewrite (detector_exists (loseV bb) _ ltac:(unfold loseV; cbv zeta; apply highzero_land_l, highzero_land_l, hz) (loseV_sem bb Hbb)).
  rewrite (detector_exists (loseD1 bb) _ ltac:(unfold loseD1; cbv zeta; apply highzero_land_l, highzero_land_l, highzero_land_l, highzero_land_l, hz) (loseD1_sem bb Hbb)).
  rewrite (detector_exists (loseD2 bb) _ ltac:(unfold loseD2; cbv zeta; apply highzero_land_l, highzero_land_l, highzero_land_l, highzero_land_l, hz) (loseD2_sem bb Hbb)).
  tauto.
Qed.

(** ** The extractors agree with the naive enumeration *)

Lemma slowWin_winAt b i : 0 <= i < 64 -> slowWin b i = winAt b (i / 8) (i mod 8).
Proof.
  intros H. destruct (cell_index i H) as [Hr [Hc _]].
  unfold slowWin. rewrite Z.quot_div_nonneg, Z.rem_mod_nonneg by lia.
  apply hasRun_win; assumption.
Qed.

Lemma slowLose_loseAt b i : 0 <= i < 64 -> slowLose b i = loseAt b (i / 8) (i mod 8).
Proof.
  intros H. destruct (cell_index i H) as [Hr [Hc _]].
  unfold slowLose. rewrite Z.quot_div_nonneg, Z.rem_mod_nonneg by lia.
  apply hasRun_lose; assumption.
Qed.

Lemma land_high a e n : u64 e -> 64 <= n -> Z.testbit (Z.land a e) n = false.
Proof.
  intros He Hn. rewrite Z.land_spec, (u64_high e n He Hn). apply andb_false_r.
Qed.

Lemma GetWinningMoves_slow board pID :
  u64 (GetPlayerBoard board pID) -> u64 (bnot (Occupied board)) ->
  GetWinningMoves board pID =
  fst (slowGetWinsAndLosses (GetPlayerBoard board pID) (bnot (Occupied board))).
Proof.
  intros Hb He. apply Z.bits_inj'. intros n Hn.
  rewrite (proj1 (slow_bits (GetPlayerBoard board pID) (bnot (Occupied board)) n Hn)).
  destruct (Z.ltb_spec n 64) as [Hlt|Hge].
  - destruct (cell_index n (conj Hn Hlt)) as [Hr [Hc Hi]].
    rewrite slowWin_winAt by lia. cbn [andb].
    rewrite bnot_bits by lia.
    rewrite Hi at 1 2. rewrite GetWinningMoves_cell by assumption.
    rewrite <- Hi. apply andb_comm.
  - cbn [andb]. unfold GetWinningMoves. cbv zeta. apply land_high; assumption.
Qed.

Lemma avx2_high b e n :
  u64 e -> 64 <= n ->
  Z.testbit (fst (getWinsAndLossesAVX2 b e)) n = false /\
  Z.testbit (snd (getWinsAndLossesAVX2 b e)) n = false.
Proof.
  intros He Hn.
  cbv [getWinsAndLossesAVX2 VPBROADCASTQ VPSRLVQ VPSLLVQ VPAND VPOR ymap2
       shifts1 shifts2 shifts3 maskR1 maskR2 maskR3 maskL1 maskL2 maskL3
       VEXTRACTI128_1 lowX VPORX VPSHUFD_4E MOVQ fst snd].
  rewrite !Z.lor_spec.
  split; repeat (rewrite (Z.land_spec e), (u64_high e n He Hn)); reflexivity.
Qed.

Lemma GetWinsAndLosses_slow b e :
  u64 b -> u64 e -> GetWinsAndLosses b e = slowGetWinsAndLosses b e.
Proof.
  intros Hb He. unfold GetWinsAndLosses.
  destruct (getWinsAndLossesAVX2 b e) as [w l] eqn:E.
  destruct (slowGetWinsAndLosses b e) as [w' l'] eqn:E'.
  assert (Hbits : forall n, 0 <= n ->
            Z.testbit w n = Z.testbit w' n /\
            Z.testbit (Z.land l (bnot w)) n = Z.testbit l' n).
  { intros n Hn.
    destruct (slow_bits b e n Hn) as [S1 S2]. rewrite E' in S1, S2. cbn [fst snd] in S1, S2.
    rewrite S1, S2, Z.land_spec.
    destruct (Z.ltb_spec n 64) as [Hlt|Hge]; cbn [andb].
    - destruct (cell_index n (conj Hn Hlt)) as [Hr [Hc Hi]].
      destruct (getWinsAndLossesAVX2_cell b e (n / 8) (n mod 8) Hb Hr Hc) as [A1 A2].
      rewrite <- Hi, E in A1, A2. cbn [fst snd] in A1, A2.
      rewrite bnot_bits, A1, A2, slowWin_winAt, slowLose_loseAt by lia.
      split; [reflexivity|].
      destruct (Z.testbit e n), (winAt b (n / 8) (n mod 8)),
        (loseAt b (n / 8) (n mod 8)); reflexivity.
    - destruct (avx2_high b e n He Hge) as [A1 A2].
      rewrite E in A1, A2. cbn [fst snd] in A1, A2.
      rewrite A1, A2. split; reflexivity. }
  f_equal; apply Z.bits_inj'; intros n Hn; apply Hbits; assumption.
Qed.

(** C1. For every pair of bitboards (stones, empty) with
    [stones & empty == 0], the bit-parallel extractors return what the
    naive per-cell enumeration returns: the scalar shift-and-mask
    [GetWinningMoves] (which computes the win cells of a player whose
    stones are [stones] on a board whose free cells are [empty]) returns
    the enumeration's win cells, and the four-lane kernel followed by the
    final [lose &= !wins] returns the enumeration's pair. *)
Theorem C1_extractor_agrees_with_enumeration (stones empty : Z) :
  u64 stones -> u64 empty -> Z.land stones empty = 0 ->
  (forall board pID,
      GetPlayerBoard board pID = stones ->
      bnot (Occupied board) = empty ->
      GetWinningMoves board pID = fst (slowGetWinsAndLosses stones empty))
  /\ GetWinsAndLosses stones empty = slowGetWinsAndLosses stones empty.
Proof.
  intros Hs He _. split.
  - intros board pID <- <-. apply GetWinningMoves_slow; assumption.
  - apply GetWinsAndLosses_slow; assumption.
Qed.

Lemma C1_witness :
  (forall board pID,
      GetPlayerBoard board pID = 7 ->
      bnot (Occupied board) = 0xFFFFFFFFFFFFFFF8 ->
      GetWinningMoves board pID = fst (slowGetWinsAndLosses 7 0xFFFFFFFFFFFFFFF8))
  /\ GetWinsAndLosses 7 0xFFFFFFFFFFFFFFF8 = slowGetWinsAndLosses 7 0xFFFFFFFFFFFFFFF8.
Proof.
  apply (C1_extractor_agrees_with_enumeration 7 0xFFFFFFFFFFFFFFF8);
    [unfold u64; lia | unfold u64; lia | reflexivity].
Defined.

(** ** Wins and losses are disjoint *)

Lemma masked_disjoint w l :
  highzero w -> Z.land w (Z.land l (bnot w)) = 0.
Proof.
  intros Hw. apply Z.bits_inj'. intros n Hn.
  rewrite !Z.land_spec, Z.testbit_0_l.
  destruct (Z_lt_le_dec n 64) as [Hlt|Hge].
  - rewrite bnot_bits by lia.
    destruct (Z.testbit w n), (Z.testbit l n); reflexivity.
  - rewrite (Hw n Hge). reflexivity.
Qed.

Lemma slow_wins_highzero b e : highzero (fst (slowGetWinsAndLosses b e)).
Proof.
  intros n Hn. rewrite (proj1 (slow_bits b e n ltac:(lia))).
  destruct (Z.ltb_spec n 64); [lia|reflexivity].
Qed.

(** The lane kernel alone does not separate the two masks: with stones
    on A1, B1, C1 the cell D1 is in both of its results. *)
Remark avx2_lanes_overlap :
  getWinsAndLossesAVX2 7 (bnot 7) = (8, 8).
Proof. vm_compute. reflexivity. Qed.

(** C5. For every pair (stones, empty) with [stones & empty == 0], the
    win mask and the lose mask returned by the extractor (the lane kernel
    followed by [lose &= !wins], and likewise the naive enumeration) are
    disjoint: [win_cells & lose_cells == 0]. *)
Theorem C5_wins_and_losses_disjoint (stones empty : Z) :
  u64 stones -> u64 empty -> Z.land stones empty = 0 ->
  Z.land (fst (GetWinsAndLosses stones empty)) (snd (GetWinsAndLosses stones empty)) = 0
  /\ Z.land (fst (slowGetWinsAndLosses stones empty))
            (snd (slowGetWinsAndLosses stones empty)) = 0.
Proof.
  intros Hs He _.
  assert (Hslow : Z.land (fst (slowGetWinsAndLosses stones empty))
                         (snd (slowGetWinsAndLosses stones empty)) = 0).
  { pose proof (slow_wins_highzero stones empty) as Hw.
    unfold slowGetWinsAndLosses in *.
    destruct (fold_left (slowStep stones empty) cells (0, 0)) as [w l].
    cbn [fst snd] in *. apply masked_disjoint. exact Hw. }
  split; [|exact Hslow].
  rewrite (GetWinsAndLosses_slow stones empty Hs He). exact Hslow.
Qed.

Lemma C5_witness :
  Z.land (fst (GetWinsAndLosses 7 0xFFFFFFFFFFFFFFF8))
         (snd (GetWinsAndLosses 7 0xFFFFFFFFFFFFFFF8)) = 0
  /\ Z.land (fst (slowGetWinsAndLosses 7 0xFFFFFFFFFFFFFFF8))
            (snd (slowGetWinsAndLosses 7 0xFFFFFFFFFFFFFFF8)) = 0.
Proof.
  apply (C5_wins_and_losses_disjoint 7 0xFFFFFFFFFFFFFFF8);
    [unfold u64; lia | unfold u64; lia | reflexivity].
Defined.

(** ** No wrap-around *)

(** C6. The four-in-a-row detector never accepts a run that wraps across
    a board edge: [CheckWin] answers true exactly when four stones lie on
    four consecutive on-board cells of one of the four directions.  The
    stone set G1, H1, A2, B2 (bits 6, 7, 8, 9) is not a win; the
    anti-diagonal H1, G2, F3, E4 (bits 7, 14, 21, 28) is. *)
Theorem C6_no_wrap_around (bb : Z) :
  u64 bb ->
  (CheckWin bb = true <->
     exists dr dc, In (dr, dc) directions /\
       exists r c, 0 <= r < 8 /\ 0 <= c < 8 /\ fourRun bb r c dr dc = true)
  /\ CheckWin 0x00000000000003C0 = false
  /\ CheckWin (Z.lor (Z.lor (Z.lor (shl 1 7) (shl 1 14)) (shl 1 21)) (shl 1 28)) = true.
Proof.
  intros Hbb. split; [apply CheckWin_spec; assumption|].
  split; vm_compute; reflexivity.
Qed.

Lemma C6_witness :
  (CheckWin 0x3C0 = true <->
     exists dr dc, In (dr, dc) directions /\
       exists r c, 0 <= r < 8 /\ 0 <= c < 8 /\ fourRun 0x3C0 r c dr dc = true)
  /\ CheckWin 0x00000000000003C0 = false
  /\ CheckWin (Z.lor (Z.lor (Z.lor (shl 1 7) (shl 1 14)) (shl 1 21)) (shl 1 28)) = true.
Proof.
  apply (C6_no_wrap_around 0x3C0). unfold u64. lia.
Defined.

(** ** Forced moves *)

Lemma pos_tz_nonneg p : 0 <= pos_tz p.
Proof. induction p; cbn [pos_tz]; lia. Qed.

Lemma pos_tz_spec p :
  Z.testbit (Zpos p) (pos_tz p) = true /\
  forall j, 0 <= j < pos_tz p -> Z.testbit (Zpos p) j = false.
Proof.
  induction p as [p IH|p IH|]; cbn [pos_tz].
  - split; [reflexivity|lia].
  - destruct IH as [H1 H2]. pose proof (pos_tz_nonneg p) as Hp.
    rewrite Pos2Z.inj_xO. split.
    + replace (1 + pos_tz p) with (Z.succ (pos_tz p)) by lia.
      rewrite Z.testbit_even_succ by assumption. exact H1.
    + intros j Hj. destruct (Z.eq_dec j 0) as [->|Hne].
      * apply Z.testbit_even_0.
      * replace j with (Z.succ (j - 1)) by lia.
        rewrite Z.testbit_even_succ by lia. apply H2. lia.
  - split; [reflexivity|lia].
Qed.

Lemma tz_spec x :
  0 < x ->
  0 <= TrailingZeros64 x /\
  Z.testbit x (TrailingZeros64 x) = true /\
  forall j, 0 <= j < TrailingZeros64 x -> Z.testbit x j = false.
Proof.
  intros Hx. destruct x as [|p|p]; try lia. cbn [TrailingZeros64].
  split; [apply pos_tz_nonneg|apply pos_tz_spec].
Qed.

Lemma tz_lt64 x : 0 < x -> highzero x -> TrailingZeros64 x < 64.
Proof.
  intros Hx Hh. destruct (tz_spec x Hx) as [_ [H _]].
  destruct (Z_lt_le_dec (TrailingZeros64 x) 64); [assumption|].
  rewrite Hh in H by assumption. discriminate.
Qed.

Lemma clear_bit_spec x idx j :
  0 <= idx < 64 -> 0 <= j < 64 ->
  Z.testbit (Z.land x (bnot (shl 1 idx))) j = Z.testbit x j && negb (j =? idx).
Proof.
  intros Hi Hj. rewrite Z.land_spec, bnot_bits, pow2_bits by lia. reflexivity.
Qed.

Lemma MoveFromIndex_ToIndex idx : 0 <= idx -> ToIndex (MoveFromIndex idx) = idx.
Proof.
  intros H. unfold ToIndex, MoveFromIndex. cbn [mr mc].
  rewrite Z.quot_div_nonneg, Z.rem_mod_nonneg by lia.
  pose proof (Z.div_mod idx 8). lia.
Qed.

Lemma bitsToMoves_spec fuel x :
  0 <= x -> highzero x ->
  (forall j, 0 <= j -> Z.testbit x j = true -> 64 - Z.of_nat fuel <= j) ->
  forall m, In m (bitsToMoves fuel x) <->
            exists j, 0 <= j < 64 /\ Z.testbit x j = true /\ m = MoveFromIndex j.
Proof.
  revert x. induction fuel as [|f IH]; intros x Hx Hh Hlow m; cbn [bitsToMoves].
  - split; [intros []|]. intros [j [Hj [Hb _]]].
    specialize (Hlow j ltac:(lia) Hb). cbn in Hlow. lia.
  - destruct (Z.eqb_spec x 0) as [->|Hne].
    + split; [intros []|]. intros [j [_ [Hb _]]]. rewrite Z.testbit_0_l in Hb. discriminate.
    + assert (Hpos : 0 < x) by lia.
      destruct (tz_spec x Hpos) as [T0 [T1 T2]].
      pose proof (tz_lt64 x Hpos Hh) as T3.
      set (idx := TrailingZeros64 x) in *.
      assert (Hx' : 0 <= Z.land x (bnot (shl 1 idx))) by (apply Z.land_nonneg; auto).
      assert (Hh' : highzero (Z.land x (bnot (shl 1 idx)))) by (apply highzero_land_l; assumption).
      assert (Hlow' : forall j, 0 <= j -> Z.testbit (Z.land x (bnot (shl 1 idx))) j = true ->
                                64 - Z.of_nat f <= j).
      { intros j Hj Hb.
        destruct (Z_lt_le_dec j 64) as [Hlt|Hge]; [|lia].
        rewrite clear_bit_spec in Hb by lia.
        apply andb_prop in Hb. destruct Hb as [Hb Hn].
        apply negb_true_iff, Z.eqb_neq in Hn.
        pose proof (Hlow idx T0 T1) as Hl.
        destruct (Z_lt_le_dec j idx) as [Hji|Hji].
        - rewrite T2 in Hb by lia. discriminate.
        - rewrite Nat2Z.inj_succ in Hl. lia. }
      cbn [In]. rewrite (IH _ Hx' Hh' Hlow' m). split.
      * intros [<-|[j [Hj [Hb Hm]]]].
        -- exists idx. auto.
        -- exists j. rewrite clear_bit_spec in Hb by lia.
           apply andb_prop in Hb. destruct Hb as [Hb _]. auto.
      * intros [j [Hj [Hb Hm]]].
        destruct (Z.eq_dec j idx) as [->|Hne']; [left; auto|].
        right. exists j. rewrite clear_bit_spec by lia.
        rewrite Hb. apply Z.eqb_neq in Hne'. rewrite Hne'. auto.
Qed.

Lemma bnot_nonneg x : u64 x -> u64 (bnot x).
Proof.
  intros [H0 H1]. unfold bnot, u64.
  assert (Hf : Full = Z.ones 64) by reflexivity.
  split.
  - apply Z.lxor_nonneg. split; intros _; [vm_compute; discriminate|assumption].
  - destruct (Z.eq_dec (Z.lxor x Full) 0) as [->|Hne]; [lia|].
    assert (0 <= Z.lxor x Full).
    { apply Z.lxor_nonneg. split; intros _; [vm_compute; discriminate|assumption]. }
    apply Z.log2_lt_pow2; [lia|].
    destruct (Z_lt_le_dec (Z.log2 (Z.lxor x Full)) 64); [assumption|].
    assert (Hb : Z.testbit (Z.lxor x Full) (Z.log2 (Z.lxor x Full)) = true)
      by (apply Z.bit_log2; lia).
    rewrite Z.lxor_spec, Full_bits_high, (u64_high x) in Hb by (unfold u64; auto; lia).
    discriminate.
Qed.

Lemma GetWinningMoves_land board pID :
  exists t, GetWinningMoves board pID = Z.land t (bnot (Occupied board)).
Proof. unfold GetWinningMoves. cbv zeta. eexists. reflexivity. Qed.

Lemma GetWinningMoves_range board pID :
  u64 (Occupied board) ->
  0 <= GetWinningMoves board pID /\ highzero (GetWinningMoves board pID).
Proof.
  intros Ho. pose proof (bnot_nonneg _ Ho) as Hn.
  destruct (GetWinningMoves_land board pID) as [t ->]. split.
  - apply Z.land_nonneg. right. apply Hn.
  - intros n Hn'. apply land_high; assumption.
Qed.

Lemma GetWinningMoves_empty board pID j :
  0 <= j < 64 ->
  Z.testbit (GetWinningMoves board pID) j = true ->
  Z.testbit (Occupied board) j = false.
Proof.
  intros Hj. destruct (GetWinningMoves_land board pID) as [t ->]. intros H.
  rewrite Z.land_spec, bnot_bits in H by lia.
  apply andb_prop in H. destruct H as [_ H]. now apply negb_true_iff in H.
Qed.

Lemma lor_range a b :
  0 <= a -> highzero a -> 0 <= b -> highzero b ->
  0 <= Z.lor a b /\ highzero (Z.lor a b).
Proof.
  intros Ha Hha Hb Hhb. split.
  - apply Z.lor_nonneg. auto.
  - intros n Hn. rewrite Z.lor_spec, Hha, Hhb by assumption. reflexivity.
Qed.

Lemma GetValidMoves_unfold board cur next :
  GetValidMoves board cur next =
  if GetWinningMoves board next =? 0 then None
  else Some (bitsToMoves 64 (Z.lor (GetWinningMoves board next)
                                   (GetWinningMoves board cur))).
Proof. reflexivity. Qed.

(** C2. For every board, current player and next active player: if the
    next active player has no winning cell ([threats == 0]) the mover is
    unrestricted ([GetValidMoves] returns the nil slice), and otherwise
    the forced-move set is exactly the union of the next player's winning
    cells and the mover's own winning cells, every such cell being an
    empty cell of the board. *)
Theorem C2_forced_move_set (board : Board) (currentPID nextPID : Z) :
  u64 (Occupied board) ->
  let threats := GetWinningMoves board nextPID in
  let myWins := GetWinningMoves board currentPID in
  (threats = 0 -> GetValidMoves board currentPID nextPID = None)
  /\ (threats <> 0 ->
      exists moves,
        GetValidMoves board currentPID nextPID = Some moves
        /\ (forall m, In m moves <->
              exists idx, 0 <= idx < 64 /\ m = MoveFromIndex idx /\
                (Z.testbit threats idx = true \/ Z.testbit myWins idx = true))
        /\ (forall m, In m moves ->
              0 <= ToIndex m < 64 /\
              Z.testbit (Occupied board) (ToIndex m) = false)).
Proof.
  intros Ho. cbv zeta. rewrite GetValidMoves_unfold.
  destruct (GetWinningMoves_range board nextPID Ho) as [T0 T1].
  destruct (GetWinningMoves_range board currentPID Ho) as [W0 W1].
  pose proof (GetWinningMoves_empty board nextPID) as TE.
  pose proof (GetWinningMoves_empty board currentPID) as WE.
  set (threats := GetWinningMoves board nextPID) in *. clearbody threats.
  set (myWins := GetWinningMoves board currentPID) in *. clearbody myWins.
  split.
  - intros ->. reflexivity.
  - intros Hne. apply Z.eqb_neq in Hne. rewrite Hne.
    destruct (lor_range threats myWins T0 T1 W0 W1) as [L0 L1].
    assert (Hspec : forall m, In m (bitsToMoves 64 (Z.lor threats myWins)) <->
              exists j, 0 <= j < 64 /\ Z.testbit (Z.lor threats myWins) j = true /\
                        m = MoveFromIndex j).
    { apply bitsToMoves_spec; auto; intros j Hj _; cbn; lia. }
    eexists. split; [reflexivity|]. split.
    + intros m. rewrite Hspec. split.
      * intros [j [Hj [Hb Hm]]]. exists j. rewrite Z.lor_spec in Hb.
        apply orb_prop in Hb. auto.
      * intros [j [Hj [Hm Hb]]]. exists j. rewrite Z.lor_spec.
        split; [assumption|]. split; [|assumption].
        apply orb_true_iff. assumption.
    + intros m Hm. apply Hspec in Hm. destruct Hm as [j [Hj [Hb ->]]].
      rewrite MoveFromIndex_ToIndex by lia. split; [assumption|].
      rewrite Z.lor_spec in Hb. apply orb_prop in Hb.
      destruct Hb as [Hb|Hb]; [apply TE|apply WE]; assumption.
Qed.

Lemma C2_witness :
  let threats := GetWinningMoves c2_board 1 in
  let myWins := GetWinningMoves c2_board 0 in
  (threats = 0 -> GetValidMoves c2_board 0 1 = None)
  /\ (threats <> 0 ->
      exists moves,
        GetValidMoves c2_board 0 1 = Some moves
        /\ (forall m, In m moves <->
              exists idx, 0 <= idx < 64 /\ m = MoveFromIndex idx /\
                (Z.testbit threats idx = true \/ Z.testbit myWins idx = true))
        /\ (forall m, In m moves ->
              0 <= ToIndex m < 64 /\
              Z.testbit (Occupied c2_board) (ToIndex m) = false)).
Proof.
  apply (C2_forced_move_set c2_board 0 1). unfold u64. cbn. lia.
Defined.

Example c2_example :
  GetValidMoves c2_board 0 1 = Some [mkMove 0 3; mkMove 2 3].
Proof. vm_compute. reflexivity. Qed.

(** ** The transition function *)

Lemma indexFrom_spec players id : forall i,
  In id players ->
  exists k, indexFrom i players id = (i + k)%nat /\
            nth_error players k = Some id /\
            (k < length players)%nat.
Proof.
  induction players as [|x rest IH]; intros i Hin; [destruct Hin|].
  cbn [indexFrom]. destruct (Z.eqb_spec x id) as [->|Hne].
  - exists 0%nat. cbn. split; [lia|]. split; [reflexivity|lia].
  - destruct Hin as [E|Hin]; [contradiction|].
    destruct (IH (S i) Hin) as [k [H1 [H2 H3]]].
    exists (S k). cbn [nth_error length]. split; [lia|]. split; [assumption|lia].
Qed.

Lemma playerIndex_spec players id :
  In id players ->
  nth_error players (playerIndex players id) = Some id /\
  (playerIndex players id < length players)%nat.
Proof.
  intros Hin. destruct (indexFrom_spec players id 0%nat Hin) as [k [H1 [H2 H3]]].
  unfold playerIndex. rewrite H1. cbn. auto.
Qed.

Lemma split_at (A : Type) (l : list A) k x :
  nth_error l k = Some x -> l = firstn k l ++ x :: skipn (S k) l.
Proof.
  revert k. induction l as [|y l IH]; intros [|k] H; cbn in *; try discriminate.
  - inversion H. reflexivity.
  - f_equal. apply IH. assumption.
Qed.

Lemma removed_not_in (players : list Z) k id :
  NoDup players -> nth_error players k = Some id ->
  ~ In id (firstn k players ++ skipn (S k) players).
Proof.
  intros Hnd Hk. rewrite (split_at _ players k id Hk) in Hnd.
  apply NoDup_remove_2 in Hnd. exact Hnd.
Qed.

Lemma removed_members (players : list Z) k id x :
  NoDup players -> nth_error players k = Some id ->
  (In x (firstn k players ++ skipn (S k) players) <-> In x players /\ x <> id).
Proof.
  intros Hnd Hk. pose proof (removed_not_in players k id Hnd Hk) as Hni.
  pose proof (split_at _ players k id Hk) as Hs.
  split.
  - intros H. split.
    + rewrite Hs. apply in_app_or in H. apply in_or_app.
      destruct H; [left|right; right]; assumption.
    + intros ->. contradiction.
  - intros [H Hne]. rewrite Hs in H. apply in_app_or in H. apply in_or_app.
    destruct H as [H|[H|H]]; [left; assumption|congruence|right; assumption].
Qed.

Lemma removed_length (players : list Z) k id :
  nth_error players k = Some id ->
  S (length (firstn k players ++ skipn (S k) players)) = length players.
Proof.
  intros Hk. pose proof (split_at _ players k id Hk) as Hs.
  rewrite Hs at 3. rewrite !length_app. cbn [length]. lia.
Qed.

Lemma removed_nth_low (players : list Z) k j :
  (j < k)%nat -> (k < length players)%nat ->
  nth_error (firstn k players ++ skipn (S k) players) j = nth_error players j.
Proof.
  intros Hj Hk. rewrite nth_error_app1 by (rewrite length_firstn; lia).
  rewrite nth_error_firstn.
  destruct (Nat.ltb_spec j k); [reflexivity|lia].
Qed.

Lemma removed_nth_high (players : list Z) k j :
  (k <= j)%nat -> (k < length players)%nat ->
  nth_error (firstn k players ++ skipn (S k) players) j = nth_error players (S j).
Proof.
  intros Hj Hk. rewrite nth_error_app2 by (rewrite length_firstn; lia).
  rewrite length_firstn, nth_error_skipn.
  f_equal. lia.
Qed.

Lemma filter_absent (l : list Z) id :
  ~ In id l -> filter (fun x => negb (x =? id)) l = l.
Proof.
  induction l as [|x l IH]; intros H; cbn [filter]; [reflexivity|].
  destruct (Z.eqb_spec x id) as [->|Hne].
  - exfalso. apply H. left. reflexivity.
  - cbn [negb]. f_equal. apply IH. intros Hin. apply H. right. assumption.
Qed.

Lemma removed_filter (players : list Z) k id :
  NoDup players -> nth_error players k = Some id ->
  firstn k players ++ skipn (S k) players =
  filter (fun x => negb (x =? id)) players.
Proof.
  intros Hnd Hk. pose proof (removed_not_in players k id Hnd Hk) as Hni.
  rewrite (split_at _ players k id Hk) at 3.
  rewrite filter_app. cbn [filter]. rewrite Z.eqb_refl. cbn [negb].
  rewrite <- filter_app. symmetry. apply filter_absent. assumption.
Qed.

Lemma SimulateStep_win bd players currentID move :
  CheckWin (GetPlayerBoard (Set_ bd (ToIndex move) currentID) currentID) = true ->
  SimulateStep bd players currentID move =
  Some (mkState (Set_ bd (ToIndex move) currentID) (-1) players currentID).
Proof. intros H. unfold SimulateStep. cbv zeta. rewrite H. reflexivity. Qed.

(** C3. For every state and move, if applying the move gives the mover
    both a four-in-a-row and a three-in-a-row, the transition function
    declares the mover the winner (terminal state, nobody removed) rather
    than eliminating them: the win check comes before the lose check. *)
Theorem C3_win_before_lose (bd : Board) (players : list Z) (currentID : Z)
    (move : Move) :
  CheckWin (GetPlayerBoard (Set_ bd (ToIndex move) currentID) currentID) = true ->
  CheckLose (GetPlayerBoard (Set_ bd (ToIndex move) currentID) currentID) = true ->
  exists st,
    SimulateStep bd players currentID move = Some st
    /\ winnerID st = currentID
    /\ nextPlayerID st = -1
    /\ remainingPlayers st = players
    /\ board st = Set_ bd (ToIndex move) currentID.
Proof.
  intros Hw _. eexists. split; [apply SimulateStep_win; assumption|].
  cbn. auto.
Qed.

Lemma C3_witness :
  exists st,
    SimulateStep c3_board [0; 1; 2] 0 (mkMove 0 3) = Some st
    /\ winnerID st = 0
    /\ nextPlayerID st = -1
    /\ remainingPlayers st = [0; 1; 2]
    /\ board st = Set_ c3_board (ToIndex (mkMove 0 3)) 0.
Proof.
  apply (C3_win_before_lose c3_board [0; 1; 2] 0 (mkMove 0 3));
    vm_compute; reflexivity.
Defined.

Lemma SimulateStep_lose bd (players : list Z) currentID move :
  NoDup players -> In currentID players -> (2 <= length players)%nat ->
  CheckWin (GetPlayerBoard (Set_ bd (ToIndex move) currentID) currentID) = false ->
  CheckLose (GetPlayerBoard (Set_ bd (ToIndex move) currentID) currentID) = true ->
  exists st,
    SimulateStep bd players currentID move = Some st
    /\ board st = Set_ bd (ToIndex move) currentID
    /\ remainingPlayers st = filter (fun x => negb (x =? currentID)) players
    /\ S (length (remainingPlayers st)) = length players
    /\ (length (remainingPlayers st) = 1%nat ->
          remainingPlayers st = [winnerID st] /\ nextPlayerID st = -1)
    /\ (length (remainingPlayers st) <> 1%nat ->
          winnerID st = -1
          /\ nth_error players ((playerIndex players currentID + 1) mod length players)
             = Some (nextPlayerID st)
          /\ In (nextPlayerID st) (remainingPlayers st)).
Proof.
  intros Hnd Hin Hlen Hw Hl.
  destruct (playerIndex_spec players currentID Hin) as [Hk Hklt].
  set (k := playerIndex players currentID) in *.
  pose proof (removed_filter players k currentID Hnd Hk) as Hf.
  pose proof (removed_length players k currentID Hk) as Hrl.
  unfold SimulateStep. cbv zeta. rewrite Hw, Hl. fold k.
  unfold removeAt. destruct (Nat.leb_spec (k + 1) (length players)); [|lia].
  replace (k + 1)%nat with (S k) by lia.
  set (rem := firstn k players ++ skipn (S k) players) in *.
  destruct (Nat.eqb_spec (length rem) 1) as [E1|E1].
  - eexists. split; [reflexivity|]. cbn [board remainingPlayers winnerID nextPlayerID].
    split; [reflexivity|]. split; [exact Hf|]. split; [exact Hrl|].
    split; [|intros; contradiction]. intros _. split; [|reflexivity].
    destruct rem as [|w [|? ?]]; cbn in E1; try discriminate. reflexivity.
  - assert (Hk' : nth_error rem (if (length rem <=? k)%nat then 0%nat else k) =
                  nth_error players ((k + 1) mod length players)).
    { destruct (Nat.leb_spec (length rem) k).
      - assert (k = (length players - 1)%nat) by lia.
        replace ((k + 1) mod length players)%nat with 0%nat.
        2:{ replace (k + 1)%nat with (length players) by lia.
            symmetry. apply Nat.Div0.mod_same. }
        unfold rem. rewrite removed_nth_low by lia. reflexivity.
      - rewrite Nat.mod_small by lia.
        unfold rem. rewrite removed_nth_high by lia. f_equal. lia. }
    destruct (nth_error rem (if (length rem <=? k)%nat then 0%nat else k)) as [nextID|] eqn:En.
    + eexists. split; [reflexivity|]. cbn [board remainingPlayers winnerID nextPlayerID].
      split; [reflexivity|]. split; [exact Hf|]. split; [exact Hrl|].
      split; [intros; contradiction|]. intros _. split; [reflexivity|].
      split; [replace (S k) with (k + 1)%nat by lia; exact (eq_sym Hk')|].
      eapply nth_error_In. exact En.
    + exfalso. apply nth_error_None in En.
      destruct (Nat.leb_spec (length rem) k); lia.
Qed.

(** C4. In a state with at least two active players, a move that gives
    the mover three-in-a-row and no four-in-a-row removes the mover from
    the active list and hands the turn to the next active player
    clockwise; if a single player is left, that player is the recorded
    winner and the state is terminal.  From the empty board the moves
    P0:0, P1:8, P0:1, P1:9, P0:2, P1:10 eliminate P0, then P1, and end in
    a terminal state won by player 2. *)
Theorem C4_elimination (bd : Board) (players : list Z) (currentID : Z)
    (move : Move) :
  NoDup players -> In currentID players -> (2 <= length players)%nat ->
  CheckWin (GetPlayerBoard (Set_ bd (ToIndex move) currentID) currentID) = false ->
  CheckLose (GetPlayerBoard (Set_ bd (ToIndex move) currentID) currentID) = true ->
  (exists st,
    SimulateStep bd players currentID move = Some st
    /\ board st = Set_ bd (ToIndex move) currentID
    /\ remainingPlayers st = filter (fun x => negb (x =? currentID)) players
    /\ S (length (remainingPlayers st)) = length players
    /\ (length (remainingPlayers st) = 1%nat ->
          remainingPlayers st = [winnerID st] /\ nextPlayerID st = -1)
    /\ (length (remainingPlayers st) <> 1%nat ->
          winnerID st = -1
          /\ nth_error players ((playerIndex players currentID + 1) mod length players)
             = Some (nextPlayerID st)
          /\ In (nextPlayerID st) (remainingPlayers st)))
  /\ (exists st5 st6,
        playMoves newGameState (firstn 5 lastManMoves) = Some st5
        /\ remainingPlayers st5 = [1; 2] /\ winnerID st5 = -1 /\ nextPlayerID st5 = 1
        /\ playMoves newGameState lastManMoves = Some st6
        /\ remainingPlayers st6 = [2] /\ winnerID st6 = 2 /\ nextPlayerID st6 = -1).
Proof.
  intros Hnd Hin Hlen Hw Hl. split.
  - apply SimulateStep_lose; assumption.
  - eexists. eexists.
    split; [vm_compute; reflexivity|].
    split; [reflexivity|]. split; [reflexivity|]. split; [reflexivity|].
    split; [vm_compute; reflexivity|].
    split; [reflexivity|]. split; reflexivity.
Qed.

Lemma nodup_012 : NoDup [0; 1; 2].
Proof.
  repeat constructor; cbn; intuition discriminate.
Defined.

Lemma C4_witness :
  (exists st,
    SimulateStep c4_board [0; 1; 2] 0 (mkMove 0 2) = Some st
    /\ board st = Set_ c4_board (ToIndex (mkMove 0 2)) 0
    /\ remainingPlayers st = filter (fun x => negb (x =? 0)) [0; 1; 2]
    /\ S (length (remainingPlayers st)) = length [0; 1; 2]
    /\ (length (remainingPlayers st) = 1%nat ->
          remainingPlayers st = [winnerID st] /\ nextPlayerID st = -1)
    /\ (length (remainingPlayers st) <> 1%nat ->
          winnerID st = -1
          /\ nth_error [0; 1; 2] ((playerIndex [0; 1; 2] 0 + 1) mod length [0; 1; 2])
             = Some (nextPlayerID st)
          /\ In (nextPlayerID st) (remainingPlayers st)))
  /\ (exists st5 st6,
        playMoves newGameState (firstn 5 lastManMoves) = Some st5
        /\ remainingPlayers st5 = [1; 2] /\ winnerID st5 = -1 /\ nextPlayerID st5 = 1
        /\ playMoves newGameState lastManMoves = Some st6
        /\ remainingPlayers st6 = [2] /\ winnerID st6 = 2 /\ nextPlayerID st6 = -1).
Proof.
  apply (C4_elimination c4_board [0; 1; 2] 0 (mkMove 0 2)).
  - exact nodup_012.
  - cbn. auto.
  - cbn. lia.
  - vm_compute. reflexivity.
  - vm_compute. reflexivity.
Defined.

Example simulate_eliminates_p0 :
  SimulateStep c4_board [0; 1; 2] 0 (MoveFromIndex 2)
  = Some (mkState (mkBoard 7 0 0 7) 1 [1; 2] (-1)).
Proof. vm_compute. reflexivity. Qed.

(** ** The rollout terminates *)

Lemma u64_of_highzero x : 0 <= x -> highzero x -> u64 x.
Proof.
  intros H0 Hh. split; [assumption|].
  destruct (Z.eq_dec x 0) as [->|Hne]; [lia|].
  apply Z.log2_lt_pow2; [lia|].
  destruct (Z_lt_le_dec (Z.log2 x) 64); [assumption|].
  assert (Hb : Z.testbit x (Z.log2 x) = true) by (apply Z.bit_log2; lia).
  rewrite Hh in Hb by assumption. discriminate.
Qed.

Lemma pos_ones_pos p : 1 <= pos_ones p.
Proof. induction p; cbn [pos_ones]; lia. Qed.

Lemma OnesCount64_pos x : 0 < x -> 1 <= OnesCount64 x.
Proof. destruct x; try lia. intros _. apply pos_ones_pos. Qed.

Lemma OnesCount64_nonpos x : x <= 0 -> OnesCount64 x = 0.
Proof. destruct x; try lia; reflexivity. Qed.

Lemma OnesCount64_double x : 0 <= x -> OnesCount64 (2 * x) = OnesCount64 x.
Proof. destruct x; try lia; reflexivity. Qed.

Lemma land_even_odd a b : Z.land (2 * a) (2 * b + 1) = 2 * Z.land a b.
Proof.
  apply Z.bits_inj'. intros n Hn. rewrite Z.land_spec.
  destruct (Z.eq_dec n 0) as [->|Hne].
  - rewrite !Z.testbit_even_0. reflexivity.
  - replace n with (Z.succ (n - 1)) by lia.
    rewrite !Z.testbit_even_succ, Z.testbit_odd_succ, Z.land_spec by lia. reflexivity.
Qed.

Lemma land_odd_even a : Z.land (2 * a + 1) (2 * a) = 2 * a.
Proof.
  apply Z.bits_inj'. intros n Hn. rewrite Z.land_spec.
  destruct (Z.eq_dec n 0) as [->|Hne].
  - rewrite Z.testbit_odd_0, Z.testbit_even_0. reflexivity.
  - replace n with (Z.succ (n - 1)) by lia.
    rewrite Z.testbit_even_succ, Z.testbit_odd_succ by lia. apply andb_diag.
Qed.

Lemma clear_lowest_ones p :
  OnesCount64 (Z.land (Zpos p) (Zpos p - 1)) = OnesCount64 (Zpos p) - 1.
Proof.
  induction p as [p IH|p IH|].
  - assert (E : Z.land (Z.pos p~1) (Z.pos p~1 - 1) = 2 * Z.pos p).
    { rewrite Pos2Z.inj_xI. replace (2 * Z.pos p + 1 - 1) with (2 * Z.pos p) by lia.
      apply land_odd_even. }
    rewrite E, OnesCount64_double by lia.
    cbn [OnesCount64 pos_ones]. lia.
  - assert (E : Z.land (Z.pos p~0) (Z.pos p~0 - 1) = 2 * Z.land (Z.pos p) (Z.pos p - 1)).
    { rewrite Pos2Z.inj_xO.
      replace (2 * Z.pos p - 1) with (2 * (Z.pos p - 1) + 1) by lia.
      apply land_even_odd. }
    rewrite E, OnesCount64_double, IH.
    + cbn [OnesCount64 pos_ones]. lia.
    + apply Z.land_nonneg. left. lia.
  - reflexivity.
Qed.

Lemma dec64_small x : 0 < x -> u64 x -> dec64 x = x - 1.
Proof. intros H [_ H1]. unfold dec64. apply Z.mod_small. lia. Qed.

Lemma dropLowest_spec n x :
  u64 x -> Z.of_nat n < OnesCount64 x ->
  let t := Nat.iter n (fun temp => Z.land temp (dec64 temp)) x in
  u64 t /\ OnesCount64 t = OnesCount64 x - Z.of_nat n /\
  forall j, Z.testbit t j = true -> Z.testbit x j = true.
Proof.
  induction n as [|n IH]; intros Hx Hn; cbn [Nat.iter].
  - cbv zeta. split; [assumption|]. split; [cbn; lia|auto].
  - destruct IH as [Hu [Ho Hs]]; [assumption|lia|].
    set (t := Nat.iter n (fun temp => Z.land temp (dec64 temp)) x) in *.
    cbv zeta.
    assert (Hpos : 0 < t).
    { destruct (Z_lt_le_dec 0 t); [assumption|].
      rewrite OnesCount64_nonpos in Ho by assumption. lia. }
    change (Nat.iter (S n) (fun temp => Z.land temp (dec64 temp)) x)
      with (Z.land t (dec64 t)).
    rewrite dec64_small by assumption.
    split; [|split].
    + apply u64_of_highzero.
      * apply Z.land_nonneg. left. lia.
      * apply highzero_land_l, highzero_u64, Hu.
    + destruct t as [|p|p]; try lia. rewrite clear_lowest_ones. lia.
    + intros j Hj. rewrite Z.land_spec in Hj. apply andb_prop in Hj. apply Hs, Hj.
Qed.

(** Placing a stone on a free cell leaves one free cell fewer. *)
Lemma filter_flip (l : list Z) (f f' : Z -> bool) idx :
  NoDup l -> In idx l -> f idx = true -> f' idx = false ->
  (forall j, j <> idx -> f' j = f j) ->
  S (length (filter f' l)) = length (filter f l).
Proof.
  induction l as [|x l IH]; intros Hnd Hin Hf Hf' Hext; [destruct Hin|].
  inversion Hnd as [|? ? Hx Hnd']; subst. cbn [filter].
  destruct (Z.eq_dec x idx) as [->|Hne].
  - rewrite Hf, Hf'. cbn [length]. f_equal.
    f_equal. clear IH Hin Hnd. induction l as [|y l IHl]; [reflexivity|].
    cbn [filter]. inversion Hnd'; subst.
    rewrite Hext by (intros ->; apply Hx; left; reflexivity).
    rewrite IHl; auto. intros H. apply Hx. right. assumption.
  - destruct Hin as [E|Hin]; [contradiction|].
    rewrite (Hext x Hne). destruct (f x); cbn [length]; rewrite <- (IH Hnd' Hin Hf Hf' Hext);
      reflexivity.
Qed.

Lemma NoDup_map_inj (l : list nat) :
  NoDup l -> NoDup (map Z.of_nat l).
Proof.
  induction l as [|x l IH]; intros H; cbn [map]; [constructor|].
  inversion H; subst. constructor; [|auto].
  rewrite in_map_iff. intros [y [Hy Hin]]. apply Nat2Z.inj in Hy. subst. contradiction.
Qed.

Lemma cells_NoDup : NoDup cells.
Proof. unfold cells. apply NoDup_map_inj, seq_NoDup. Qed.

Lemma emptyCount_set occ idx :
  0 <= idx < 64 -> Z.testbit occ idx = false ->
  S (emptyCount (Z.lor occ (shl 1 idx))) = emptyCount occ.
Proof.
  intros Hi Hb. unfold emptyCount.
  apply filter_flip with (idx := idx).
  - apply cells_NoDup.
  - apply cells_In. assumption.
  - rewrite Hb. reflexivity.
  - rewrite Z.lor_spec, pow2_bits, Z.eqb_refl by lia. rewrite orb_true_r. reflexivity.
  - intros j Hj. destruct (Z_lt_le_dec j 0).
    + rewrite !Z.testbit_neg_r by lia. reflexivity.
    + rewrite Z.lor_spec, pow2_bits by lia.
      apply Z.eqb_neq in Hj. rewrite Hj, orb_false_r. reflexivity.
Qed.

Lemma Set_Occupied b idx pID : Occupied (Set_ b idx pID) = Z.lor (Occupied b) (shl 1 idx).
Proof.
  unfold Set_. cbv zeta.
  destruct (pID =? 0); [reflexivity|]. destruct (pID =? 1); [reflexivity|].
  destruct (pID =? 2); reflexivity.
Qed.

Lemma shl1_u64 idx : 0 <= idx -> u64 (shl 1 idx).
Proof.
  intros H. apply u64_of_highzero.
  - unfold shl. destruct (64 <=? idx); [lia|]. apply Z.land_nonneg. right. vm_compute. discriminate.
  - intros n Hn. unfold shl. destruct (64 <=? idx); [apply Z.testbit_0_l|].
    rewrite Z.land_spec, Full_bits_high by assumption. apply andb_false_r.
Qed.

Lemma lor_u64 a b : u64 a -> u64 b -> u64 (Z.lor a b).
Proof.
  intros Ha Hb. apply u64_of_highzero.
  - apply Z.lor_nonneg. split; [apply Ha|apply Hb].
  - intros n Hn. rewrite Z.lor_spec, !u64_high by assumption. reflexivity.
Qed.

Lemma playerIndex_lt (players : list Z) id :
  players <> [] -> (playerIndex players id < length players)%nat.
Proof.
  intros Hne. unfold playerIndex.
  assert (H : forall l i, (indexFrom i l id <= i + length l)%nat /\
                          (l <> [] -> (indexFrom i l id < i + length l)%nat \/ indexFrom i l id = 0%nat)).
  { induction l as [|x l IH]; intros i; cbn [indexFrom length].
    - split; [lia|]. intros H. contradiction.
    - destruct (x =? id).
      + split; [lia|]. intros _. left. lia.
      + destruct (IH (S i)) as [H1 H2]. split; [lia|]. intros _.
        destruct l as [|y l'].
        * cbn [indexFrom]. right. reflexivity.
        * destruct H2 as [H2|H2]; [discriminate|left; lia|right; assumption]. }
  destruct (H players 0%nat) as [_ H2]. destruct (H2 Hne) as [H3|H3].
  - lia.
  - rewrite H3. destruct players; [contradiction|cbn; lia].
Qed.

Lemma removeAt_some (l : list Z) k :
  (k < length l)%nat ->
  exists l', removeAt k l = Some l' /\ S (length l') = length l.
Proof.
  intros Hk. unfold removeAt. destruct (Nat.leb_spec (k + 1) (length l)); [|lia].
  eexists. split; [reflexivity|].
  rewrite length_app, length_firstn, length_skipn. lia.
Qed.

Lemma nth_error_some (l : list Z) k :
  (k < length l)%nat -> exists x, nth_error l k = Some x.
Proof.
  intros Hk. destruct (nth_error l k) eqn:E; [eauto|].
  apply nth_error_None in E. lia.
Qed.

Section RolloutTermination.

Variable RNG : Type.
Variable Intn : RNG -> Z -> Z * RNG.
Hypothesis Intn_range : forall g n, 0 < n -> 0 <= fst (Intn g n) < n.

(** The cell picked in a round: the lowest set bit left after dropping
    [pick] bits of the candidate mask. *)
Lemma pick_is_candidate mb pick :
  u64 mb -> 0 <= pick < OnesCount64 mb ->
  let idx := TrailingZeros64 (dropLowest pick mb) in
  0 <= idx < 64 /\ Z.testbit mb idx = true.
Proof.
  intros Hu Hp. unfold dropLowest.
  destruct (dropLowest_spec (Z.to_nat pick) mb Hu) as [Ht [Ho Hs]]; [lia|].
  cbv zeta in Ht, Ho, Hs.
  set (t := Nat.iter (Z.to_nat pick) (fun temp => Z.land temp (dec64 temp)) mb) in *.
  assert (Hpos : 0 < t).
  { destruct (Z_lt_le_dec 0 t); [assumption|].
    rewrite OnesCount64_nonpos in Ho by assumption. lia. }
  destruct (tz_spec t Hpos) as [T0 [T1 _]].
  pose proof (tz_lt64 t Hpos (highzero_u64 t Ht)).
  cbv zeta. split; [lia|]. apply Hs. assumption.
Qed.

Lemma round_progress g b (players : list Z) curr :
  u64 (Occupied b) -> players <> [] ->
  match RunSimulation_round RNG Intn g b players curr with
  | Crash _ => False
  | Return _ _ _ => True
  | Next _ g' b' players' curr' =>
      u64 (Occupied b') /\ players' <> [] /\
      S (emptyCount (Occupied b')) = emptyCount (Occupied b) /\
      exists idx, 0 <= idx < 64 /\ Z.testbit (Occupied b) idx = false /\
                  b' = Set_ b idx curr
  end.
Proof.
  intros Ho Hne. unfold RunSimulation_round.
  destruct (Nat.eqb_spec (length players) 1) as [E1|E1]; [exact I|].
  cbv zeta.
  destruct (Nat.eqb_spec (length players) 0) as [E0|E0].
  { destruct players; [contradiction|discriminate]. }
  pose proof (playerIndex_lt players curr Hne) as Hk.
  set (k := playerIndex players curr) in *.
  assert (Hlen : (2 <= length players)%nat) by lia.
  destruct (nth_error_some players ((k + 1) mod length players)) as [nextP EnP].
  { apply Nat.mod_upper_bound. lia. }
  rewrite EnP.
  destruct (GetWinningMoves_range b nextP Ho) as [T0 T1].
  destruct (GetWinningMoves_range b curr Ho) as [W0 W1].
  pose proof (GetWinningMoves_empty b nextP) as TE.
  pose proof (GetWinningMoves_empty b curr) as WE.
  set (threats := GetWinningMoves b nextP) in *. clearbody threats.
  set (myWins := GetWinningMoves b curr) in *. clearbody myWins.
  set (mb := if nonzero threats then Z.lor threats myWins else bnot (Occupied b)).
  assert (Hmb : u64 mb /\ forall j, 0 <= j < 64 -> Z.testbit mb j = true ->
                                    Z.testbit (Occupied b) j = false).
  { unfold mb. destruct (nonzero threats).
    - split.
      + apply lor_u64; apply u64_of_highzero; assumption.
      + intros j Hj Hb. rewrite Z.lor_spec in Hb. apply orb_prop in Hb.
        destruct Hb; [apply TE|apply WE]; assumption.
    - split; [apply bnot_nonneg; assumption|].
      intros j Hj Hb. rewrite bnot_bits in Hb by assumption.
      now apply negb_true_iff in Hb. }
  destruct Hmb as [Hmu Hme]. clearbody mb.
  destruct (Z.eqb_spec mb 0) as [Em|Em]; [exact I|].
  destruct (Z.eqb_spec (OnesCount64 mb) 0) as [Ec|Ec]; [exact I|].
  assert (Hc : 0 < OnesCount64 mb).
  { pose proof (OnesCount64_pos mb). destruct Hmu. lia. }
  pose proof (Intn_range g (OnesCount64 mb) Hc) as Hpick.
  destruct (Intn g (OnesCount64 mb)) as [pick g'] eqn:EI. cbn [fst] in Hpick.
  destruct (pick_is_candidate mb pick Hmu Hpick) as [Hidx Hbit]. cbv zeta in Hidx, Hbit.
  set (idx := TrailingZeros64 (dropLowest pick mb)) in *. clearbody idx.
  pose proof (Hme idx Hidx Hbit) as Hfree.
  assert (Hnew : u64 (Occupied (Set_ b idx curr)) /\
                 S (emptyCount (Occupied (Set_ b idx curr))) = emptyCount (Occupied b)).
  { rewrite Set_Occupied. split.
    - apply lor_u64; [assumption|apply shl1_u64; lia].
    - apply emptyCount_set; assumption. }
  destruct Hnew as [Hnu Hnc].
  destruct (CheckWin _); [exact I|].
  destruct (CheckLose _).
  - destruct (removeAt_some players k Hk) as [rem [Er Hrl]]. rewrite Er.
    destruct (Nat.eqb_spec (length rem) 1) as [R1|R1]; [exact I|].
    destruct (nth_error_some rem (if (length rem <=? k)%nat then 0%nat else k)) as [c' Ec'].
    { destruct (Nat.leb_spec (length rem) k); lia. }
    rewrite Ec'. split; [assumption|]. split.
    + intros ->. cbn in Hrl. lia.
    + split; [assumption|]. exists idx. auto.
  - split; [assumption|]. split; [assumption|].
    split; [assumption|]. exists idx. auto.
Qed.

Lemma RunSimulation_loop_terminates n :
  forall g b (players : list Z) curr,
    u64 (Occupied b) -> players <> [] ->
    (emptyCount (Occupied b) <= n)%nat ->
    exists r, forall fuel, (n < fuel)%nat ->
      RunSimulation_loop RNG Intn fuel g b players curr = Done r.
Proof.
  induction n as [|n IH]; intros g b players curr Ho Hne Hc.
  - pose proof (round_progress g b players curr Ho Hne) as Hr.
    destruct (RunSimulation_round RNG Intn g b players curr) as [r g'| |g' b' p' c'] eqn:E.
    + exists (r, g'). intros [|fuel] Hf; [lia|]. cbn [RunSimulation_loop]. rewrite E. reflexivity.
    + contradiction.
    + destruct Hr as [_ [_ [Hr _]]]. lia.
  - pose proof (round_progress g b players curr Ho Hne) as Hr.
    destruct (RunSimulation_round RNG Intn g b players curr) as [r g'| |g' b' p' c'] eqn:E.
    + exists (r, g'). intros [|fuel] Hf; [lia|]. cbn [RunSimulation_loop]. rewrite E. reflexivity.
    + contradiction.
    + destruct Hr as [Hu [Hp [Hr _]]].
      destruct (IH g' b' p' c' Hu Hp ltac:(lia)) as [r Hrr].
      exists r. intros [|fuel] Hf; [lia|]. cbn [RunSimulation_loop]. rewrite E.
      apply Hrr. lia.
Qed.

(** C10. For every board, every nonempty active-player list and every
    current player of that list, [RunSimulation] terminates: a round of
    its loop never panics and either returns a result (win, last player
    standing, or draw when no move is available) or places a stone on a
    previously empty cell, so the number of empty cells strictly
    decreases; with more rounds allowed than there are empty cells the
    loop returns, and the result does not depend on the allowance. *)
Theorem C10_RunSimulation_terminates (g : RNG) (bd : Board)
    (players : list Z) (currentID : Z) :
  u64 (Occupied bd) -> players <> [] -> In currentID players ->
  (forall g0 b (ps : list Z) c,
      u64 (Occupied b) -> ps <> [] ->
      match RunSimulation_round RNG Intn g0 b ps c with
      | Crash _ => False
      | Return _ _ _ => True
      | Next _ _ b' ps' _ =>
          u64 (Occupied b') /\ ps' <> [] /\
          (emptyCount (Occupied b') < emptyCount (Occupied b))%nat /\
          exists idx, 0 <= idx < 64 /\ Z.testbit (Occupied b) idx = false /\
                      b' = Set_ b idx c
      end)
  /\ exists r, forall fuel,
        (emptyCount (Occupied bd) < fuel)%nat ->
        RunSimulation RNG Intn fuel g bd players currentID = Done r.
Proof.
  intros Ho Hne _. split.
  - intros g0 b ps c Hb Hps.
    pose proof (round_progress g0 b ps c Hb Hps) as H.
    destruct (RunSimulation_round RNG Intn g0 b ps c); auto.
    destruct H as [H1 [H2 [H3 H4]]].
    split; [exact H1|]. split; [exact H2|]. split; [lia|exact H4].
  - unfold RunSimulation.
    apply (RunSimulation_loop_terminates (emptyCount (Occupied bd))); auto.
Qed.

End RolloutTermination.

Lemma C10_witness :
  (forall g0 b (ps : list Z) c,
      u64 (Occupied b) -> ps <> [] ->
      match RunSimulation_round unit zeroIntn g0 b ps c with
      | Crash _ => False
      | Return _ _ _ => True
      | Next _ _ b' ps' _ =>
          u64 (Occupied b') /\ ps' <> [] /\
          (emptyCount (Occupied b') < emptyCount (Occupied b))%nat /\
          exists idx, 0 <= idx < 64 /\ Z.testbit (Occupied b) idx = false /\
                      b' = Set_ b idx c
      end)
  /\ exists r, forall fuel,
        (emptyCount (Occupied emptyBoard) < fuel)%nat ->
        RunSimulation unit zeroIntn fuel tt emptyBoard [0; 1; 2] 0 = Done r.
Proof.
  apply (C10_RunSimulation_terminates unit zeroIntn).
  - intros g n Hn. cbn. lia.
  - unfold u64. cbn. lia.
  - discriminate.
  - cbn. auto.
Defined.

Example rollout_from_empty_board :
  RunSimulation unit zeroIntn 65 tt emptyBoard [0; 1; 2] 0 = Done ([(2, 1)], tt).
Proof. vm_compute. reflexivity. Qed.

(** ** The search and the browser entry points *)

Lemma bestStep_fold (l : list (Move * MCTSNode)) : forall acc,
  ((forall e, In e l -> Node.visits (snd e) <= fst acc) /\
   fold_left bestStep l acc = acc)
  \/
  (exists pre e post,
      l = pre ++ e :: post /\
      fold_left bestStep l acc = (Node.visits (snd e), fst e) /\
      fst acc < Node.visits (snd e) /\
      (forall x, In x pre -> Node.visits (snd x) < Node.visits (snd e)) /\
      (forall x, In x post -> Node.visits (snd x) <= Node.visits (snd e))).
Proof.
  induction l as [|x l IH]; intros acc.
  - left. split; [intros e []|reflexivity].
  - cbn [fold_left]. unfold bestStep at 2 4.
    destruct (Z.ltb_spec (fst acc) (Node.visits (snd x))) as [Hlt|Hge].
    + right. destruct (IH (Node.visits (snd x), fst x)) as [[Hall Hres]|[pre [e [post [Hl [Hres [Hlt' [Hpre Hpost]]]]]]]].
      * exists [], x, l. cbn [app fst] in *.
        split; [reflexivity|]. split; [exact Hres|]. split; [exact Hlt|].
        split; [intros y []|exact Hall].
      * exists (x :: pre), e, post. cbn [fst] in *. subst l.
        split; [reflexivity|]. split; [exact Hres|]. split; [lia|].
        split; [|exact Hpost]. intros y [<-|Hy]; auto.
    + destruct (IH acc) as [[Hall Hres]|[pre [e [post [Hl [Hres [Hlt' [Hpre Hpost]]]]]]]].
      * left. split; [|assumption]. intros e [<-|He]; auto.
      * right. exists (x :: pre), e, post. subst l.
        split; [reflexivity|]. split; [exact Hres|]. split; [exact Hlt'|].
        split; [|exact Hpost]. intros y [<-|Hy]; [lia|auto].
Qed.

Lemma mostVisited_spec (order : list (Move * MCTSNode)) :
  order <> [] ->
  (forall e, In e order -> 0 <= Node.visits (snd e)) ->
  exists pre child post,
    order = pre ++ (mostVisited order, child) :: post /\
    (forall x, In x pre -> Node.visits (snd x) < Node.visits child) /\
    (forall x, In x order -> Node.visits (snd x) <= Node.visits child).
Proof.
  intros Hne Hpos. unfold mostVisited.
  destruct (bestStep_fold order (-1, mkMove 0 0)) as [[Hall _]|[pre [e [post [Hl [Hres [_ [Hpre Hpost]]]]]]]].
  - exfalso. destruct order as [|x l]; [contradiction|].
    specialize (Hall x (or_introl eq_refl)). specialize (Hpos x (or_introl eq_refl)).
    cbn [fst] in Hall. lia.
  - rewrite Hres. cbn [snd]. exists pre, (snd e), post.
    split; [rewrite <- surjective_pairing; assumption|]. split; [assumption|].
    intros x Hx. rewrite Hl in Hx. apply in_app_or in Hx.
    destruct Hx as [Hx|[<-|Hx]]; [apply Z.lt_le_incl; auto|lia|auto].
Qed.

Lemma uint_small idx : 0 <= idx < 64 -> uint idx = idx.
Proof. intros H. unfold uint. apply Z.mod_small. lia. Qed.

Lemma land_pow2_zero b i : 0 <= i < 64 ->
  (Z.land b (shl 1 i) =? 0) = negb (Z.testbit b i).
Proof.
  intros Hi. rewrite <- (land_pow2_nonzero b i Hi). unfold nonzero.
  now rewrite negb_involutive.
Qed.

Section ApplyMove.

Variable ApplyMove : GameState -> Move -> GameState.

(** C7. For every current game state and every cell index, [applyMove]
    returns failure (the value [false]) exactly when the target cell is
    already occupied, or the forced-move set is nonempty and the cell
    lies outside it; on failure the game state is left unchanged. *)
Theorem C7_applyMove_rejects (gs : GameState) (idx : Z) (rest : list Z) :
  0 <= idx < 64 ->
  let forced :=
    GetForcedMoves (gsBoard gs) (ActiveIDs gs)
                   (playerIndex (ActiveIDs gs) (PlayerID gs)) in
  (fst (applyMove ApplyMove gs (idx :: rest)) = JSBool false <->
     Z.testbit (Occupied (gsBoard gs)) idx = true
     \/ (forced <> 0 /\ Z.testbit forced idx = false))
  /\ (fst (applyMove ApplyMove gs (idx :: rest)) = JSBool false ->
      snd (applyMove ApplyMove gs (idx :: rest)) = gs).
Proof.
  intros Hidx forced. unfold applyMove. cbv zeta. fold forced.
  rewrite (uint_small idx Hidx), land_pow2_nonzero, land_pow2_zero by assumption.
  clearbody forced. unfold nonzero.
  destruct (Z.testbit (Occupied (gsBoard gs)) idx) eqn:Eo; cbn [fst snd].
  - split; [|reflexivity]. split; auto.
  - destruct (Z.eqb_spec forced 0) as [E0|E0]; cbn [negb andb].
    + split; [|discriminate]. split; [discriminate|].
      intros [H|[H _]]; [discriminate|contradiction].
    + destruct (Z.testbit forced idx) eqn:Ef; cbn [negb fst snd].
      * split; [|discriminate]. split; [discriminate|].
        intros [H|[_ H]]; discriminate.
      * split; [|reflexivity]. split; auto.
Qed.

End ApplyMove.

Lemma C7_witness :
  Z.testbit (Occupied (gsBoard c7_state)) 5 = false
  /\ GetForcedMoves (gsBoard c7_state) (ActiveIDs c7_state)
       (playerIndex (ActiveIDs c7_state) (PlayerID c7_state)) = 0x40000
  /\ fst (applyMove c7_apply c7_state [5]) = JSBool false
  /\ snd (applyMove c7_apply c7_state [5]) = c7_state
  /\ Z.testbit (Occupied (gsBoard c7_state)) 0 = true
  /\ fst (applyMove c7_apply c7_state [0]) = JSBool false
  /\ snd (applyMove c7_apply c7_state [0]) = c7_state
  /\ fst (applyMove c7_apply c7_state [18]) <> JSBool false
  /\ snd (applyMove c7_apply c7_state [18]) <> c7_state.
Proof.
  pose proof (C7_applyMove_rejects c7_apply c7_state 5 [] ltac:(lia)) as H5.
  pose proof (C7_applyMove_rejects c7_apply c7_state 0 [] ltac:(lia)) as H0.
  pose proof (C7_applyMove_rejects c7_apply c7_state 18 [] ltac:(lia)) as H18.
  cbv zeta in H5, H0, H18.
  destruct H5 as [I5 U5], H0 as [I0 U0], H18 as [I18 _].
  assert (R5 : fst (applyMove c7_apply c7_state [5]) = JSBool false).
  { apply I5. right. split; vm_compute; [discriminate|reflexivity]. }
  assert (R0 : fst (applyMove c7_apply c7_state [0]) = JSBool false).
  { apply I0. left. vm_compute. reflexivity. }
  split; [vm_compute; reflexivity|].
  split; [vm_compute; reflexivity|].
  split; [exact R5|]. split; [exact (U5 R5)|].
  split; [vm_compute; reflexivity|].
  split; [exact R0|]. split; [exact (U0 R0)|].
  split.
  - intros E. apply I18 in E. destruct E as [E|[_ E]]; vm_compute in E; discriminate.
  - vm_compute. discriminate.
Defined.

Lemma lookupChild_In m cs c :
  lookupChild m cs = Some c -> exists k, In (k, c) cs.
Proof.
  induction cs as [|[k c'] rest IH]; cbn [lookupChild]; [discriminate|].
  destruct (Move_eqb k m).
  - intros E. inversion E; subst. exists k. left. reflexivity.
  - intros E. destruct (IH E) as [k' Hk]. exists k'. right. assumption.
Qed.

Lemma setChild_In m c cs e :
  In e (setChild m c cs) -> snd e = c \/ In e cs.
Proof.
  induction cs as [|[k c'] rest IH]; cbn [setChild].
  - intros [<-|[]]. left. reflexivity.
  - destruct (Move_eqb k m).
    + intros [<-|H]; [left; reflexivity|right; right; assumption].
    + intros [<-|H]; [right; left; reflexivity|].
      destruct (IH H); [left|right; right]; assumption.
Qed.

Lemma backprop_visits result pm path n :
  Node.visits (backprop result pm path n) = Node.visits n + 1.
Proof.
  destruct path as [|m rest]; cbn [backprop]; cbv zeta; [reflexivity|].
  destruct (lookupChild m (Node.children (Update result pm n))); reflexivity.
Qed.

Lemma backprop_childVisitsOK result pm path n :
  childVisitsOK n -> childVisitsOK (backprop result pm path n).
Proof.
  intros Hok. destruct path as [|m rest]; cbn [backprop]; cbv zeta; [exact Hok|].
  change (Node.children (Update result pm n)) with (Node.children n).
  destruct (lookupChild m (Node.children n)) as [c|] eqn:Ec; [|exact Hok].
  intros e He. cbn [setChildren Node.children] in He.
  apply setChild_In in He. destruct He as [He|He]; [|apply Hok; assumption].
  rewrite He, backprop_visits.
  destruct (lookupChild_In _ _ _ Ec) as [k Hk].
  specialize (Hok _ Hk). cbn [snd] in Hok. lia.
Qed.

Lemma updateNode_visits path f :
  (forall x, Node.visits (f x) = Node.visits x) ->
  forall n, Node.visits (updateNode path f n) = Node.visits n.
Proof.
  intros Hf. induction path as [|m rest IH]; intros n; cbn [updateNode]; [apply Hf|].
  destruct (lookupChild m (Node.children n)); reflexivity.
Qed.

Lemma updateNode_childVisitsOK path f n :
  (forall x, Node.visits (f x) = Node.visits x) ->
  (childVisitsOK n -> childVisitsOK (f n)) ->
  childVisitsOK n -> childVisitsOK (updateNode path f n).
Proof.
  intros Hf Hfn Hok. destruct path as [|m rest]; cbn [updateNode]; [auto|].
  destruct (lookupChild m (Node.children n)) as [c|] eqn:Ec; [|exact Hok].
  intros e He. cbn [setChildren Node.children] in He.
  apply setChild_In in He. destruct He as [He|He]; [|apply Hok; assumption].
  rewrite He, updateNode_visits by assumption.
  destruct (lookupChild_In _ _ _ Ec) as [k Hk].
  specialize (Hok _ Hk). exact Hok.
Qed.

Lemma newChild_visits state : Node.visits (newChild state) = 0.
Proof. reflexivity. Qed.

Section SearchInvariant.

Variable RNG : Type.
Variable Intn : RNG -> Z -> Z * RNG.
Variable UCTSelectChild : MCTSNode -> option Move.

Lemma searchRound_childVisitsOK g root g' root' :
  searchRound RNG Intn UCTSelectChild g root = Done (g', root') ->
  childVisitsOK root -> childVisitsOK root'.
Proof.
  unfold searchRound. intros H Hok.
  destruct (selectPath UCTSelectChild 65 root) as [path| |]; try discriminate.
  destruct (getNode root path) as [node|]; try discriminate.
  cbv zeta in H.
  destruct (0 <? length (Node.untriedMoves node))%nat.
  - destruct (Intn g (Z.of_nat (length (Node.untriedMoves node)))) as [k g1].
    destruct (nth_error (Node.untriedMoves node) (Z.to_nat k)) as [move|]; try discriminate.
    destruct (SimulateStep (Node.board node) (Node.remainingPlayers node)
                (Node.playerToMoveID node) move) as [state|]; try discriminate.
    match type of H with
    | match (if ?c then _ else ?r) with _ => _ end = _ =>
        destruct c; [|destruct r as [[res g2]| |]; try discriminate];
        inversion H; subst; apply backprop_childVisitsOK;
        (apply updateNode_childVisitsOK; [reflexivity| |exact Hok];
         intros Hn e He; cbn [setChildren Node.children] in He;
         apply setChild_In in He; destruct He as [He|He];
         [rewrite He, newChild_visits; lia|apply Hn; assumption])
    end.
  - match type of H with
    | match (if ?c then _ else ?r) with _ => _ end = _ =>
        destruct c; [|destruct r as [[res g2]| |]; try discriminate];
        inversion H; subst; apply backprop_childVisitsOK; exact Hok
    end.
Qed.

Lemma searchRounds_childVisitsOK n : forall g root g' root',
  searchRounds RNG Intn UCTSelectChild n g root = Done (g', root') ->
  childVisitsOK root -> childVisitsOK root'.
Proof.
  induction n as [|n IH]; intros g root g' root'; cbn [searchRounds].
  - intros E. inversion E; subst. auto.
  - destruct (searchRound RNG Intn UCTSelectChild g root) as [[g1 root1]| |] eqn:E1;
      try discriminate.
    intros E Hok. eapply IH; [exact E|].
    eapply searchRound_childVisitsOK; eassumption.
Qed.

End SearchInvariant.

Lemma searchRoot_childVisitsOK bd forcedMoves players pid :
  childVisitsOK (searchRoot bd forcedMoves players pid).
Proof.
  unfold searchRoot. cbv zeta.
  destruct (0 <? length forcedMoves)%nat; intros e He; destruct He.
Qed.

Section FinalSelection.

Variable RNG : Type.
Variable Intn : RNG -> Z -> Z * RNG.
Variable UCTSelectChild : MCTSNode -> option Move.
Variable rangeOrder : list (Move * MCTSNode) -> list (Move * MCTSNode).
Hypothesis rangeOrder_perm : forall l, Permutation (rangeOrder l) l.

(** C9 (as the code has it). After the iteration loop of a search whose
    root has at least one child, the move returned is the key of a root
    child whose visit count is maximal among all root children; when
    several children share the maximal count, the one that the [range]
    over the children map yields first is returned. *)
Theorem C9_most_visited_first_in_range_order (g : RNG) (iterations : Z)
    (bd : Board) (forcedMoves : list Move) (players : list Z) (turnIdx : nat)
    (pid : Z) (g' : RNG) (root : MCTSNode) :
  nth_error players turnIdx = Some pid ->
  searchRounds RNG Intn UCTSelectChild (Z.to_nat iterations) g
    (searchRoot bd forcedMoves players pid) = Done (g', root) ->
  Node.children root <> [] ->
  exists m child pre post,
    GetMoveWithContext RNG Intn UCTSelectChild rangeOrder g iterations bd
      forcedMoves players turnIdx = Done (m, g')
    /\ rangeOrder (Node.children root) = pre ++ (m, child) :: post
    /\ In (m, child) (Node.children root)
    /\ (forall x, In x (Node.children root) ->
          Node.visits (snd x) <= Node.visits child)
    /\ (forall x, In x pre -> Node.visits (snd x) < Node.visits child).
Proof.
  intros Hpid Hloop Hne.
  assert (Hpos : childVisitsOK root).
  { eapply searchRounds_childVisitsOK; [exact Hloop|].
    apply searchRoot_childVisitsOK. }
  pose proof (rangeOrder_perm (Node.children root)) as Hperm.
  assert (Hne' : rangeOrder (Node.children root) <> []).
  { intros E. rewrite E in Hperm. apply Permutation_nil in Hperm. contradiction. }
  destruct (mostVisited_spec (rangeOrder (Node.children root)) Hne')
    as [pre [child [post [Hsplit [Hpre Hmax]]]]].
  { intros e He. apply Hpos. eapply Permutation_in; eassumption. }
  assert (Hfinal : GetMoveWithContext RNG Intn UCTSelectChild rangeOrder g iterations bd
            forcedMoves players turnIdx
          = Done (mostVisited (rangeOrder (Node.children root)), g')).
  { unfold GetMoveWithContext. rewrite Hpid, Hloop. unfold finalMove.
    destruct (Nat.eqb_spec (length (Node.children root)) 0) as [E|E]; [|reflexivity].
    exfalso. apply Hne. destruct (Node.children root); [reflexivity|discriminate]. }
  set (m := mostVisited (rangeOrder (Node.children root))) in *. clearbody m.
  exists m, child, pre, post.
  split; [exact Hfinal|split; [exact Hsplit|split; [|split; [|exact Hpre]]]].
  - eapply Permutation_in; [exact Hperm|]. rewrite Hsplit.
    apply in_or_app. right. left. reflexivity.
  - intros x Hx. apply Hmax. eapply Permutation_in; [apply Permutation_sym; exact Hperm|exact Hx].
Qed.

End FinalSelection.

Lemma C9_counterexample :
  ~ (forall children order : list (Move * MCTSNode),
        children <> [] -> Permutation order children ->
        (forall e, In e children -> 0 <= Node.visits (snd e)) ->
        exists pre child post,
          children = pre ++ (mostVisited order, child) :: post
          /\ (forall x, In x children -> Node.visits (snd x) <= Node.visits child)
          /\ (forall x, In x pre -> Node.visits (snd x) < Node.visits child)).
Proof.
  intros H.
  destruct (H tiedChildren (rev tiedChildren)) as [pre [child [post [Hs [_ Hpre]]]]].
  - discriminate.
  - apply Permutation_sym, Permutation_rev.
  - intros e [<-|[<-|[]]]; cbn; lia.
  - change (mostVisited (rev tiedChildren)) with (mkMove 0 1) in Hs.
    unfold tiedChildren in Hs.
    destruct pre as [|x pre]; cbn [app] in Hs.
    + inversion Hs.
    + inversion Hs as [[Hx Hrest]]. subst x.
      specialize (Hpre _ (or_introl eq_refl)).
      destruct pre as [|y pre]; cbn [app] in Hrest.
      * inversion Hrest; subst. cbn in Hpre. lia.
      * inversion Hrest as [[Hy Hrest']]. destruct pre; discriminate.
Qed.

Example range_order_decides_ties :
  mostVisited tiedChildren = mkMove 0 0 /\
  mostVisited (rev tiedChildren) = mkMove 0 1.
Proof. split; reflexivity. Qed.

Lemma C9_witness :
  map (fun e => (fst e, Node.visits (snd e))) (Node.children c9_root)
    = [(mkMove 0 0, 1); (mkMove 5 4, 1)]
  /\ GetMoveWithContext Z counterIntn noChild reverseOrder 0 2 emptyBoard
       [] [0; 1; 2] 0%nat = Done (mkMove 5 4, 62)
  /\ GetMoveWithContext Z counterIntn noChild insertionOrder 0 2 emptyBoard
       [] [0; 1; 2] 0%nat = Done (mkMove 0 0, 62)
  /\ exists m child pre post,
       GetMoveWithContext Z counterIntn noChild reverseOrder 0 2 emptyBoard
         [] [0; 1; 2] 0%nat = Done (m, 62)
       /\ reverseOrder (Node.children c9_root) = pre ++ (m, child) :: post
       /\ In (m, child) (Node.children c9_root)
       /\ (forall x, In x (Node.children c9_root) ->
             Node.visits (snd x) <= Node.visits child)
       /\ (forall x, In x pre -> Node.visits (snd x) < Node.visits child).
Proof.
  split; [vm_compute; reflexivity|].
  split; [vm_compute; reflexivity|].
  split; [vm_compute; reflexivity|].
  apply (C9_most_visited_first_in_range_order Z counterIntn noChild reverseOrder
           (fun l => Permutation_sym (Permutation_rev l))
           0 2 emptyBoard [] [0; 1; 2] 0%nat 0 62 c9_root).
  - reflexivity.
  - vm_compute. reflexivity.
  - discriminate.
Defined.

Lemma pos_ones_one_unique p :
  pos_ones p = 1 -> forall j, 0 <= j -> Z.testbit (Zpos p) j = true -> j = pos_tz p.
Proof.
  induction p as [p IH|p IH|]; cbn [pos_ones pos_tz]; intros H1 j Hj Hb.
  - pose proof (pos_ones_pos p). lia.
  - destruct (Z.eq_dec j 0) as [->|Hne].
    + rewrite Pos2Z.inj_xO, Z.testbit_even_0 in Hb. discriminate.
    + replace j with (Z.succ (j - 1)) in Hb by lia.
      rewrite Pos2Z.inj_xO, Z.testbit_even_succ in Hb by lia.
      specialize (IH H1 (j - 1) ltac:(lia) Hb). lia.
  - destruct (Z.eq_dec j 0) as [->|Hne]; [reflexivity|].
    replace j with (Z.succ (j - 1)) in Hb by lia.
    change 1 with (2 * 0 + 1) in Hb.
    rewrite Z.testbit_odd_succ, Z.testbit_0_l in Hb by lia. discriminate.
Qed.

Lemma ones_one_unique x j :
  OnesCount64 x = 1 -> 0 <= j -> Z.testbit x j = true -> j = TrailingZeros64 x.
Proof.
  destruct x as [|p|p]; cbn [OnesCount64 TrailingZeros64]; try discriminate.
  intros H1 Hj Hb. apply pos_ones_one_unique; assumption.
Qed.

Lemma single_bit_lowest forced threats myWins :
  forced = Z.lor threats myWins -> OnesCount64 forced = 1 ->
  0 <= myWins -> myWins <> 0 ->
  TrailingZeros64 forced = TrailingZeros64 myWins.
Proof.
  intros -> H1 H0 Hne.
  destruct (tz_spec myWins ltac:(lia)) as [T0 [T1 _]].
  symmetry. apply ones_one_unique; [assumption|assumption|].
  rewrite Z.lor_spec, T1. apply orb_true_r.
Qed.

Lemma GetWinsAndLosses_wins_nonneg b e : 0 <= e -> 0 <= fst (GetWinsAndLosses b e).
Proof.
  intros He.
  assert (H : exists a1 a2 a3 a4,
             fst (GetWinsAndLosses b e) =
             Z.lor (Z.lor (Z.land e a1) (Z.land e a2)) (Z.lor (Z.land e a3) (Z.land e a4))).
  { cbv [GetWinsAndLosses getWinsAndLossesAVX2 VPBROADCASTQ VPSRLVQ VPSLLVQ VPAND VPOR ymap2
         shifts1 shifts2 shifts3 maskR1 maskR2 maskR3 maskL1 maskL2 maskL3
         VEXTRACTI128_1 lowX VPORX VPSHUFD_4E MOVQ fst snd].
    do 4 eexists. reflexivity. }
  destruct H as [a1 [a2 [a3 [a4 ->]]]].
  repeat (apply Z.lor_nonneg; split); apply Z.land_nonneg; left; assumption.
Qed.

Lemma GetForcedMoves_unfold bd players turnIdx :
  GetForcedMoves bd players turnIdx =
  if fst (GetWinsAndLosses
            (GetPlayerBoard bd (nth ((turnIdx + 1) mod length players)%nat players 0))
            (bnot (Occupied bd))) =? 0
  then 0
  else Z.lor
         (fst (GetWinsAndLosses
                 (GetPlayerBoard bd (nth ((turnIdx + 1) mod length players)%nat players 0))
                 (bnot (Occupied bd))))
         (fst (GetWinsAndLosses (GetPlayerBoard bd (nth turnIdx players 0))
                 (bnot (Occupied bd)))).
Proof. reflexivity. Qed.

Section BestMove.

Variable GetMove : Z -> Board -> list Z -> nat -> option Move.

(** The shortcut that [getBestMove] itself takes: it answers without
    calling [GetMove] exactly when the forced-move set is a single cell,
    and then returns that cell; if the mover has a winning cell in such
    a state, the cell returned is the lowest set bit of the mover's win
    mask.  In every other state the answer is the move that [GetMove]
    returns. *)
Lemma getBestMove_single_forced_cell (gs : GameState) (args : list Z) :
  u64 (Occupied (gsBoard gs)) ->
  let activeIDs := ActiveIDs gs in
  let turnIdx := playerIndex activeIDs (PlayerID gs) in
  let forced := GetForcedMoves (gsBoard gs) activeIDs turnIdx in
  let myWins :=
    fst (GetWinsAndLosses (GetPlayerBoard (gsBoard gs) (nth turnIdx activeIDs 0))
                          (bnot (Occupied (gsBoard gs)))) in
  let iterations := match args with [] => 10000 | a :: _ => a end in
  (forced <> 0 -> OnesCount64 forced = 1 ->
     getBestMove GetMove gs args = Some (JSInt (TrailingZeros64 forced))
     /\ (myWins <> 0 -> TrailingZeros64 forced = TrailingZeros64 myWins))
  /\ (forced = 0 \/ OnesCount64 forced <> 1 ->
      getBestMove GetMove gs args =
      match GetMove iterations (gsBoard gs) activeIDs turnIdx with
      | None => None
      | Some move => Some (JSInt (ToIndex move))
      end).
Proof.
  intros Ho. cbv zeta. unfold getBestMove. cbv zeta.
  set (activeIDs := ActiveIDs gs).
  set (turnIdx := playerIndex activeIDs (PlayerID gs)).
  pose proof (GetForcedMoves_unfold (gsBoard gs) activeIDs turnIdx) as Hf.
  pose proof (GetWinsAndLosses_wins_nonneg
                (GetPlayerBoard (gsBoard gs) (nth turnIdx activeIDs 0))
                (bnot (Occupied (gsBoard gs)))
                (proj1 (bnot_nonneg _ Ho))) as Hw.
  set (myWins := fst (GetWinsAndLosses
                        (GetPlayerBoard (gsBoard gs) (nth turnIdx activeIDs 0))
                        (bnot (Occupied (gsBoard gs))))) in *.
  set (threats := fst (GetWinsAndLosses
                        (GetPlayerBoard (gsBoard gs)
                           (nth ((turnIdx + 1) mod length activeIDs)%nat activeIDs 0))
                        (bnot (Occupied (gsBoard gs))))) in *.
  set (forced := GetForcedMoves (gsBoard gs) activeIDs turnIdx) in *.
  clearbody forced myWins threats.
  unfold nonzero. split.
  - intros Hne H1. apply Z.eqb_neq in Hne. rewrite Hne, H1. cbn [negb andb Z.eqb Pos.eqb].
    split; [reflexivity|]. intros Hm.
    destruct (threats =? 0); [apply Z.eqb_neq in Hne; contradiction|].
    eapply single_bit_lowest; eauto.
  - intros [H0|H1].
    + rewrite H0. reflexivity.
    + apply Z.eqb_neq in H1. rewrite H1, andb_false_r. reflexivity.
Qed.

End BestMove.

Lemma OnesCount64_zero : OnesCount64 0 = 0.
Proof. reflexivity. Qed.

Section WinFastPath.

Variable treeSearch : Z -> Board -> list Z -> nat -> option Move.

(** C8. Whenever [getBestMove] is called on a state in which the mover
    has at least one winning cell (the mover's win mask from the
    extractor is nonzero), it returns the lowest set bit of that win
    mask, whatever the tree search would do: either through its own
    single-forced-cell shortcut, whose cell is then that bit, or through
    the win fast path of [GetMove]. *)
Theorem C8_win_fast_path (gs : GameState) (args : list Z) :
  u64 (Occupied (gsBoard gs)) ->
  let activeIDs := ActiveIDs gs in
  let turnIdx := playerIndex activeIDs (PlayerID gs) in
  let myWins :=
    fst (GetWinsAndLosses (GetPlayerBoard (gsBoard gs) (nth turnIdx activeIDs 0))
                          (bnot (Occupied (gsBoard gs)))) in
  myWins <> 0 ->
  getBestMove (MCTSPlayer_GetMove treeSearch) gs args
  = Some (JSInt (TrailingZeros64 myWins)).
Proof.
  intros Ho activeIDs turnIdx myWins Hm.
  pose proof (getBestMove_single_forced_cell (MCTSPlayer_GetMove treeSearch) gs args Ho)
    as Hsc.
  cbv zeta in Hsc. fold activeIDs turnIdx myWins in Hsc.
  pose proof (GetWinsAndLosses_wins_nonneg
                (GetPlayerBoard (gsBoard gs) (nth turnIdx activeIDs 0))
                (bnot (Occupied (gsBoard gs)))
                (proj1 (bnot_nonneg _ Ho))) as Hw.
  fold myWins in Hw.
  destruct Hsc as [Hone Hother].
  set (forced := GetForcedMoves (gsBoard gs) activeIDs turnIdx) in *.
  destruct (Z.eq_dec (OnesCount64 forced) 1) as [E1|E1].
  - assert (Hne : forced <> 0).
    { intros E0. rewrite E0, OnesCount64_zero in E1. discriminate. }
    destruct (Hone Hne E1) as [Hres Htz]. rewrite Hres, (Htz Hm). reflexivity.
  - rewrite (Hother (or_intror E1)).
    unfold MCTSPlayer_GetMove. cbv zeta. fold forced. fold myWins.
    apply Z.eqb_neq in E1. rewrite E1.
    unfold nonzero. apply Z.eqb_neq in Hm. rewrite Hm. cbn [negb].
    rewrite MoveFromIndex_ToIndex; [reflexivity|].
    apply Z.eqb_neq in Hm.
    destruct (tz_spec myWins ltac:(lia)) as [T0 _]. exact T0.
Qed.

End WinFastPath.

Lemma C8_witness :
  fst (GetWinsAndLosses (GetPlayerBoard c8_board 0) (bnot (Occupied c8_board))) = 0x1100
  /\ GetForcedMoves c8_board [0; 1; 2] 0 = 0
  /\ getBestMove (MCTSPlayer_GetMove noSearch) c8_state [100] = Some (JSInt 8).
Proof.
  split; [vm_compute; reflexivity|]. split; [vm_compute; reflexivity|].
  apply (C8_win_fast_path noSearch c8_state [100]).
  - unfold u64. cbn. lia.
  - vm_compute. discriminate.
Defined.

Example forced_cell_is_the_win :
  GetForcedMoves c8_forced_board [0; 1; 2] 0 = 8 /\
  getBestMove (MCTSPlayer_GetMove noSearch) c8_forced_state [100] = Some (JSInt 3).
Proof. split; vm_compute; reflexivity. Qed.

(** ** Further properties of the detectors, the kernel and the transition function *)

(** X1. [CheckLose] answers true exactly when three stones lie on three
    consecutive on-board cells of one of the four directions; a triple
    that wraps around a board edge is never counted. *)
Theorem X1_CheckLose_three_in_a_row (bb : Z) :
  u64 bb ->
  (CheckLose bb = true <->
   exists dr dc, In (dr, dc) directions /\
     exists r c, 0 <= r < 8 /\ 0 <= c < 8 /\ threeRun bb r c dr dc = true).
Proof. apply CheckLose_spec. Qed.

Lemma X1_witness :
  CheckLose 0x1C0 = true <->
   exists dr dc, In (dr, dc) directions /\
     exists r c, 0 <= r < 8 /\ 0 <= c < 8 /\ threeRun 0x1C0 r c dr dc = true.
Proof. apply (X1_CheckLose_three_in_a_row 0x1C0). unfold u64. lia. Defined.

Lemma fourRun_threeRun b r c dr dc :
  fourRun b r c dr dc = true -> threeRun b r c dr dc = true.
Proof.
  unfold fourRun, threeRun. intros H. apply andb_prop in H. apply H.
Qed.

(** X2. Every board that [CheckWin] accepts is also accepted by
    [CheckLose]: a four-in-a-row always contains a three-in-a-row, so it
    is only the order of the two tests that keeps a winner from being
    eliminated. *)
Theorem X2_win_implies_lose (bb : Z) :
  u64 bb -> CheckWin bb = true -> CheckLose bb = true.
Proof.
  intros Hu Hw. apply (CheckLose_spec bb Hu).
  apply (CheckWin_spec bb Hu) in Hw.
  destruct Hw as [dr [dc [Hd [r [c [Hr [Hc H]]]]]]].
  exists dr, dc. split; [assumption|]. exists r, c.
  split; [assumption|]. split; [assumption|]. apply fourRun_threeRun. assumption.
Qed.

Lemma X2_witness : CheckLose 0xF = true.
Proof.
  apply (X2_win_implies_lose 0xF); [unfold u64; lia|vm_compute; reflexivity].
Defined.

(** X3. Cell indices and moves convert back and forth without loss:
    [ToIndex (MoveFromIndex idx)] is [idx] for every integer (Go's
    truncating division and remainder included), and
    [MoveFromIndex (ToIndex m)] is [m] for every move with a non-negative
    row (small enough for [r*8] not to overflow an [int]) and a column
    in 0..7. *)
Theorem X3_move_index_round_trip (idx : Z) (m : Move) :
  0 <= mr m < 2 ^ 60 -> 0 <= mc m < 8 ->
  ToIndex (MoveFromIndex idx) = idx /\ MoveFromIndex (ToIndex m) = m.
Proof.
  intros Hr Hc. split.
  - unfold ToIndex, MoveFromIndex. cbn [mr mc].
    pose proof (Z.quot_rem' idx 8). lia.
  - destruct m as [r c]. unfold ToIndex, MoveFromIndex. cbn [mr mc] in *.
    assert (Hn : 0 <= r * 8 + c) by lia.
    rewrite Z.quot_div_nonneg, Z.rem_mod_nonneg by lia.
    f_equal.
    + rewrite Z.div_add_l by lia. rewrite Z.div_small by lia. lia.
    + rewrite Z.add_comm, Z.mod_add by lia. apply Z.mod_small. lia.
Qed.

Lemma X3_witness :
  ToIndex (MoveFromIndex (-13)) = -13 /\ MoveFromIndex (ToIndex (mkMove 9 7)) = mkMove 9 7.
Proof.
  apply (X3_move_index_round_trip (-13) (mkMove 9 7)); cbn; lia.
Defined.

Lemma winDir_loseDir b r c dr dc :
  winDir b r c dr dc = true -> loseDir b r c dr dc = true.
Proof.
  unfold winDir, loseDir.
  destruct (nb b r c dr dc (-3)), (nb b r c dr dc (-2)), (nb b r c dr dc (-1)),
    (nb b r c dr dc 1), (nb b r c dr dc 2), (nb b r c dr dc 3);
    cbn; intros H; first [reflexivity | discriminate].
Qed.

Lemma winAt_loseAt b r c : winAt b r c = true -> loseAt b r c = true.
Proof.
  unfold winAt, loseAt. rewrite !orb_true_iff.
  intros [[[H|H]|H]|H]; apply winDir_loseDir in H; auto.
Qed.

(** X4. The lane kernel alone returns nested masks: for all 64-bit
    inputs every cell of its win result is also in its lose result
    (completing a four-run always completes a three-run), and both
    results lie inside [e].  Disjoint win and lose sets therefore exist
    only after the caller's [lose &= !wins]. *)
Theorem X4_kernel_masks_nested (b e : Z) :
  u64 b -> u64 e ->
  let w := fst (getWinsAndLossesAVX2 b e) in
  let l := snd (getWinsAndLossesAVX2 b e) in
  Z.land w l = w /\ Z.land w e = w /\ Z.land l e = l.
Proof.
  intros Hb He. cbv zeta.
  assert (Hbits : forall n, 0 <= n ->
    let w := Z.testbit (fst (getWinsAndLossesAVX2 b e)) n in
    let l := Z.testbit (snd (getWinsAndLossesAVX2 b e)) n in
    (w = true -> l = true) /\ (w = true -> Z.testbit e n = true) /\
    (l = true -> Z.testbit e n = true)).
  { intros n Hn. cbv zeta.
    destruct (Z_lt_le_dec n 64) as [Hlt|Hge].
    - destruct (cell_index n (conj Hn Hlt)) as [Hr [Hc Hi]].
      destruct (getWinsAndLossesAVX2_cell b e (n / 8) (n mod 8) Hb Hr Hc) as [A1 A2].
      rewrite <- Hi in A1, A2. rewrite A1, A2.
      destruct (Z.testbit e n); cbn [andb]; [|repeat split; discriminate].
      split; [apply winAt_loseAt|]. split; reflexivity.
    - destruct (avx2_high b e n He Hge) as [A1 A2]. rewrite A1, A2.
      repeat split; discriminate. }
  repeat split; apply Z.bits_inj'; intros n Hn; rewrite Z.land_spec;
    destruct (Hbits n Hn) as [H1 [H2 H3]]; cbv zeta in H1, H2, H3;
    destruct (Z.testbit (fst (getWinsAndLossesAVX2 b e)) n);
    destruct (Z.testbit (snd (getWinsAndLossesAVX2 b e)) n);
    cbn [andb]; try reflexivity;
    try (rewrite H1 by reflexivity; reflexivity);
    try (rewrite H2 by reflexivity; reflexivity);
    try (rewrite H3 by reflexivity; reflexivity);
    try (symmetry; apply H1; reflexivity).
Qed.

Lemma X4_witness :
  let w := fst (getWinsAndLossesAVX2 7 0xFFFFFFFFFFFFFFF8) in
  let l := snd (getWinsAndLossesAVX2 7 0xFFFFFFFFFFFFFFF8) in
  Z.land w l = w /\ Z.land w 0xFFFFFFFFFFFFFFF8 = w /\ Z.land l 0xFFFFFFFFFFFFFFF8 = l.
Proof.
  apply (X4_kernel_masks_nested 7 0xFFFFFFFFFFFFFFF8); unfold u64; lia.
Defined.

(** X5. For a move to a cell of the board (row and column in 0..7),
    [SimulateStep] panics in exactly two situations, both without a
    four-in-a-row for the mover: the player list is empty, or it holds a
    single player and the move makes three-in-a-row (the list becomes
    empty and [newPlayers[pIdx]] is out of range). *)
Theorem X5_SimulateStep_panics (bd : Board) (players : list Z) (currentID : Z)
    (move : Move) :
  0 <= mr move < 8 -> 0 <= mc move < 8 ->
  let bb := GetPlayerBoard (Set_ bd (ToIndex move) currentID) currentID in
  SimulateStep bd players currentID move = None <->
  CheckWin bb = false /\
  (players = [] \/ (CheckLose bb = true /\ length players = 1%nat)).
Proof.
  intros _ _. cbv zeta. unfold SimulateStep. cbv zeta.
  set (bb := GetPlayerBoard (Set_ bd (ToIndex move) currentID) currentID).
  clearbody bb.
  destruct (CheckWin bb).
  { split; [discriminate|]. intros [H _]. discriminate. }
  destruct players as [|p0 rest].
  { destruct (CheckLose bb); cbn; split; auto. }
  assert (Hne : p0 :: rest <> []) by discriminate.
  pose proof (playerIndex_lt (p0 :: rest) currentID Hne) as Hk.
  set (k := playerIndex (p0 :: rest) currentID) in *.
  destruct (CheckLose bb).
  - destruct (removeAt_some (p0 :: rest) k Hk) as [rem [Er Hrl]]. rewrite Er.
    cbn [length] in Hrl, Hk.
    destruct (Nat.eqb_spec (length rem) 1) as [E1|E1].
    + split; [discriminate|]. intros [_ [H|[_ H]]]; [discriminate|].
      cbn [length] in H. lia.
    + destruct rest as [|p1 rest'].
      * cbn [length] in Hrl. destruct rem; [|cbn in Hrl; lia].
        cbn. split; auto.
      * destruct (nth_error_some rem (if (length rem <=? k)%nat then 0%nat else k))
          as [x Ex].
        { cbn [length] in Hrl, Hk. destruct (Nat.leb_spec (length rem) k); lia. }
        rewrite Ex. split; [discriminate|].
        intros [_ [H|[_ H]]]; [discriminate|]. cbn [length] in H. lia.
  - cbn [length Nat.eqb].
    destruct (nth_error_some (p0 :: rest) ((k + 1) mod S (length rest))) as [x Ex].
    { apply Nat.mod_upper_bound. lia. }
    cbn [length] in Ex. rewrite Ex. split; [discriminate|].
    intros [_ [H|[H _]]]; discriminate.
Qed.

Lemma X5_witness :
  SimulateStep (mkBoard 3 0 0 3) [0] 0 (mkMove 0 2) = None.
Proof.
  refine (proj2 (X5_SimulateStep_panics (mkBoard 3 0 0 3) [0] 0 (mkMove 0 2) _ _) _).
  - cbn. lia.
  - cbn. lia.
  - split; [vm_compute; reflexivity|].
    right. split; vm_compute; reflexivity.
Defined.

Lemma indexFrom_absent (players : list Z) id i :
  ~ In id players -> indexFrom i players id = 0%nat.
Proof.
  revert i. induction players as [|x l IH]; intros i H; cbn [indexFrom]; [reflexivity|].
  destruct (Z.eqb_spec x id) as [->|Hne].
  - exfalso. apply H. left. reflexivity.
  - apply IH. intros Hin. apply H. right. assumption.
Qed.

(** X6. When the mover is not in the player list, the lookup of its
    position silently yields 0: a move that makes three-in-a-row then
    removes the first player of the list instead of the mover. *)
Theorem X6_absent_mover_eliminates_first (bd : Board) (p0 p1 : Z)
    (rest : list Z) (currentID : Z) (move : Move) :
  0 <= ToIndex move ->
  ~ In currentID (p0 :: p1 :: rest) ->
  CheckWin (GetPlayerBoard (Set_ bd (ToIndex move) currentID) currentID) = false ->
  CheckLose (GetPlayerBoard (Set_ bd (ToIndex move) currentID) currentID) = true ->
  exists st,
    SimulateStep bd (p0 :: p1 :: rest) currentID move = Some st
    /\ remainingPlayers st = p1 :: rest
    /\ (rest <> [] -> nextPlayerID st = p1 /\ winnerID st = -1)
    /\ (rest = [] -> winnerID st = p1 /\ nextPlayerID st = -1).
Proof.
  intros _ Hni Hw Hl. unfold SimulateStep. cbv zeta. rewrite Hw, Hl.
  unfold playerIndex. rewrite (indexFrom_absent _ _ _ Hni).
  unfold removeAt. cbn [length Nat.add Nat.leb firstn skipn app].
  destruct rest as [|p2 rest'].
  - cbn. eexists. split; [reflexivity|]. cbn.
    split; [reflexivity|]. split; [intros H; contradiction|auto].
  - cbn. eexists. split; [reflexivity|]. cbn.
    split; [reflexivity|]. split; [auto|discriminate].
Qed.

Lemma X6_witness :
  exists st,
    SimulateStep (mkBoard 0 0 3 3) [0; 1] 2 (mkMove 0 2) = Some st
    /\ remainingPlayers st = [1]
    /\ (@nil Z <> [] -> nextPlayerID st = 1 /\ winnerID st = -1)
    /\ (@nil Z = [] -> winnerID st = 1 /\ nextPlayerID st = -1).
Proof.
  apply (X6_absent_mover_eliminates_first (mkBoard 0 0 3 3) 0 1 [] 2 (mkMove 0 2)).
  - cbn. lia.
  - cbn. intros [H|[H|[]]]; discriminate.
  - vm_compute. reflexivity.
  - vm_compute. reflexivity.
Defined.
